(** * Teaching-assistant orchestrator: course state, task classifier, plan /
    delegate / integrate / verify loop.

    Shallow embedding of [src/state/course_state.ts], [src/utils/helpers.ts]
    and [src/agents/master.ts].

    Conventions of the embedding
    - JavaScript strings are [string]s of 8-bit characters; [toLowerCase]
      acts on the letters A-Z, which is what [String.prototype.toLowerCase]
      does on the ASCII range (all keywords of the program are ASCII).
    - JavaScript numbers that hold lecture numbers and counters are [Z].
    - An optional property ([context?: string], [validTo?: number]) is an
      [option]; [None] is [undefined].
    - A [Map] whose iteration order matters is an insertion-ordered
      association list; the lecture map, only read key by key, is a [gmap]. *)

From Stdlib Require Import Ascii String Permutation.
From stdpp Require Import gmap strings list pretty.

Set Warnings "-register-all".

Local Open Scope string_scope.
Local Open Scope Z_scope.
Local Open Scope list_scope.

(** ** JavaScript string primitives used by the program *)
Module Js.

Definition lowerChar (c : ascii) : ascii :=
  let n := nat_of_ascii c in
  if ((65 <=? n) && (n <=? 90))%nat then ascii_of_nat (n + 32) else c.

Definition upperChar (c : ascii) : ascii :=
  let n := nat_of_ascii c in
  if ((97 <=? n) && (n <=? 122))%nat then ascii_of_nat (n - 32) else c.

Fixpoint toLowerCase (s : string) : string :=
  match s with
  | EmptyString => EmptyString
  | String c s' => String (lowerChar c) (toLowerCase s')
  end.

Fixpoint toUpperCase (s : string) : string :=
  match s with
  | EmptyString => EmptyString
  | String c s' => String (upperChar c) (toUpperCase s')
  end.

(** [s.includes(kw)]: [kw] occurs in [s] as a contiguous substring. *)
Fixpoint includes (kw s : string) : bool :=
  String.prefix kw s ||
  match s with
  | EmptyString => false
  | String _ s' => includes kw s'
  end.

(** [arr.join(sep)] *)
Fixpoint join (sep : string) (l : list string) : string :=
  match l with
  | [] => EmptyString
  | [x] => x
  | x :: rest => x +:+ sep +:+ join sep rest
  end.

(** The double-quote character, code point 34. *)
Definition dquote : string := String (ascii_of_nat 34) EmptyString.

(** Truthiness of an optional string: [undefined] and the empty string
    are falsy. *)
Definition truthy (o : option string) : bool :=
  match o with
  | None => false
  | Some EmptyString => false
  | Some (String _ _) => true
  end.

End Js.

(** ** [src/types/index.ts] *)
Inductive Language := en | de.

Inductive TaskType := latex | problemset | research | rcode | mixed.

#[global] Instance TaskType_eq_dec : EqDecision TaskType.
Proof. solve_decision. Defined.

#[global] Instance Language_eq_dec : EqDecision Language.
Proof. solve_decision. Defined.

Record SubAgentResult := {
  agentType : string;
  success : bool;
  output : string;
  files : option (list string);
  errors : option (list string)
}.

Record VerificationResult := {
  passed : bool;
  issues : list string;
  warnings : list string
}.

Record ChangeLogEntry := {
  timestamp : string;
  agent : string;
  action : string;
  cl_files : list string;
  description : string
}.

(** ** [src/utils/helpers.ts] *)
Module Helpers.
Import Js.

Definition keywords_latex : list string :=
  ["latex"; "slides"; "beamer"; "compile"; "tex"; "macro"; "polish"].
Definition keywords_problemset : list string :=
  ["problem"; "exercise"; "solution"; "homework"; "assignment"; "quiz"].
Definition keywords_research : list string :=
  ["research"; "literature"; "citation"; "bibtex"; "paper"; "reference";
   "background"].
Definition keywords_rcode : list string :=
  ["r code"; "r script"; "rstudio"; "analysis"; "data"; "plot";
   "simulation"].

(** The [keywords] object, as its keys in declaration order. *)
Definition keywords (c : TaskType) : list string :=
  match c with
  | latex => keywords_latex
  | problemset => keywords_problemset
  | research => keywords_research
  | rcode => keywords_rcode
  | mixed => []
  end.

(** [kws.some(kw => lower.includes(kw))] *)
Definition someIncluded (kws : list string) (lower : string) : bool :=
  existsb (fun kw => includes kw lower) kws.

(** The [matches] object: [Object.entries] order is declaration order. *)
Definition matches (lower : string) : list (TaskType * bool) :=
  [ (latex, someIncluded keywords_latex lower);
    (problemset, someIncluded keywords_problemset lower);
    (research, someIncluded keywords_research lower);
    (rcode, someIncluded keywords_rcode lower) ].

Definition matchCount (lower : string) : nat :=
  length (filter (fun b : bool => b = true) (map snd (matches lower))).

(** [classifyTask]; [None] stands for the [undefined] that
    [find(...)?.[0]] would give were no entry matched. *)
Definition classifyTask (taskDescription : string) : option TaskType :=
  let lower := toLowerCase taskDescription in
  if (matchCount lower =? 0)%nat then Some mixed
  else if (1 <? matchCount lower)%nat then Some mixed
  else fst <$> List.find (fun e : TaskType * bool => snd e) (matches lower).

(** Vocabulary of the classification policy: the four category
    families, and those of them with at least one keyword occurring in
    the lowercased text. *)
Definition families : list TaskType := [latex; problemset; research; rcode].

Definition familyMatches (c : TaskType) (text : string) : bool :=
  someIncluded (keywords c) (toLowerCase text).

Definition matching (text : string) : list TaskType :=
  List.filter (fun c => familyMatches c text) families.

(** [classifyTask] as a function of the four match flags alone. *)
Definition decide4 (a b c d : bool) : option TaskType :=
  match a, b, c, d with
  | true, false, false, false => Some latex
  | false, true, false, false => Some problemset
  | false, false, true, false => Some research
  | false, false, false, true => Some rcode
  | _, _, _, _ => Some mixed
  end.

(** [createChangeLogEntry]; the reading [now] of [timestamp()] is taken by
    the caller, which owns the clock. *)
Definition createChangeLogEntry (now agent action : string)
    (files : list string) (description : string) : ChangeLogEntry :=
  {| timestamp := now; agent := agent; action := action;
     cl_files := files; description := description |}.

Definition MAX_TASK_DESCRIPTION_LENGTH : nat := 60.

(** *** [formatChangeLog] *)
Definition newline : string := String (ascii_of_nat 10) EmptyString.

(** One pass of the [for ... of] loop: the block of [entry] appended to
    [output]. *)
Definition formatEntry (output : string) (entry : ChangeLogEntry) : string :=
  output +:+
  "## " +:+ timestamp entry +:+ newline +:+
  "**Agent:** " +:+ agent entry +:+ newline +:+
  "**Action:** " +:+ action entry +:+ newline +:+
  "**Files:** " +:+ join ", " (cl_files entry) +:+ newline +:+
  "**Description:** " +:+ description entry +:+ newline +:+ newline.

Definition formatChangeLog (entries : list ChangeLogEntry) : string :=
  if (length entries =? 0)%nat then "No changes recorded."
  else fold_left formatEntry entries ("# Change Log" +:+ newline +:+ newline).

(** *** [sanitizeFilename] *)

(** The character class [[a-z0-9_-]]. *)
Definition allowedChar (c : ascii) : bool :=
  let n := nat_of_ascii c in
  ((97 <=? n) && (n <=? 122) || (48 <=? n) && (n <=? 57) ||
   (n =? 95) || (n =? 45))%nat.

(** The character class [[_-]]. *)
Definition separatorChar (c : ascii) : bool :=
  let n := nat_of_ascii c in ((n =? 95) || (n =? 45))%nat.

Definition underscoreChar (c : ascii) : bool := (nat_of_ascii c =? 95)%nat.

Definition underscore : ascii := ascii_of_nat 95.

(** [.replace(/[^a-z0-9_-]+/g, '_')]: every maximal run of characters
    outside the class becomes one underscore; [inRun] tells that the
    previous character belonged to such a run. *)
Fixpoint replaceDisallowed (inRun : bool) (s : string) : string :=
  match s with
  | EmptyString => EmptyString
  | String c s' =>
      if allowedChar c then String c (replaceDisallowed false s')
      else if inRun then replaceDisallowed true s'
      else String underscore (replaceDisallowed true s')
  end.

(** [.replace(/_{2,}/g, '_')]: every run of two or more underscores
    becomes one; [afterUnderscore] tells that the previous character was an
    underscore. *)
Fixpoint collapseUnderscores (afterUnderscore : bool) (s : string) : string :=
  match s with
  | EmptyString => EmptyString
  | String c s' =>
      if underscoreChar c
      then if afterUnderscore then collapseUnderscores true s'
           else String c (collapseUnderscores true s')
      else String c (collapseUnderscores false s')
  end.

(** [.replace(/^[_-]+|[_-]+$/g, '')]: the leading and the trailing run of
    separators are removed. *)
Fixpoint trimLeading (s : string) : string :=
  match s with
  | EmptyString => EmptyString
  | String c s' => if separatorChar c then trimLeading s' else s
  end.

Fixpoint trimTrailing (s : string) : string :=
  match s with
  | EmptyString => EmptyString
  | String c s' =>
      match trimTrailing s' with
      | EmptyString => if separatorChar c then EmptyString else String c EmptyString
      | rest => String c rest
      end
  end.

Definition sanitizeFilename (title : string) : string :=
  trimTrailing
    (trimLeading
       (collapseUnderscores false
          (replaceDisallowed false (toLowerCase title)))).


(** Vocabulary for the properties of [sanitizeFilename]. *)
Fixpoint allChars (p : ascii -> bool) (s : string) : bool :=
  match s with
  | EmptyString => true
  | String c s' => p c && allChars p s'
  end.

Definition startsWithSeparator (s : string) : bool :=
  match s with
  | EmptyString => false
  | String c _ => separatorChar c
  end.

Fixpoint endsWithSeparator (s : string) : bool :=
  match s with
  | EmptyString => false
  | String c EmptyString => separatorChar c
  | String _ s' => endsWithSeparator s'
  end.

(** Whether two underscores follow each other in [s] (or [s] starts with
    one right after an underscore). *)
Fixpoint doubledUnderscore (afterUnderscore : bool) (s : string) : bool :=
  match s with
  | EmptyString => false
  | String c s' =>
      (afterUnderscore && underscoreChar c) ||
      doubledUnderscore (underscoreChar c) s'
  end.

(** A sanitized name: only characters of the class, no separator at
    either end, no two underscores in a row. *)
Definition cleanName (s : string) : Prop :=
  allChars allowedChar s = true /\
  startsWithSeparator s = false /\
  endsWithSeparator s = false /\
  doubledUnderscore false s = false.

(** The blocks of a list of entries, without the heading. *)
Definition renderBlocks (entries : list ChangeLogEntry) : string :=
  fold_left formatEntry entries EmptyString.

(** A letter a-z or a digit. *)
Definition alphanumericChar (c : ascii) : bool :=
  let n := nat_of_ascii c in
  ((97 <=? n) && (n <=? 122) || (48 <=? n) && (n <=? 57))%nat.

End Helpers.

(** ** JSON values

    The persisted document is modelled by its JSON value: what
    [JSON.parse] gives back on the text written by [JSON.stringify]. *)
Module Json.

Inductive json :=
| JNull
| JBool (b : bool)
| JNum (n : Z)
| JStr (s : string)
| JArr (items : list json)
| JObj (props : list (string * json)).

(** Reading property [k] of a parsed object; [None] is [undefined]. *)
Fixpoint prop (k : string) (props : list (string * json)) : option json :=
  match props with
  | [] => None
  | (k', v) :: rest => if String.eqb k' k then Some v else prop k rest
  end.

Definition get (k : string) (j : json) : option json :=
  match j with
  | JObj props => prop k props
  | _ => None
  end.

(** [JSON.stringify] leaves out a property whose value is [undefined]. *)
Definition optProp (k : string) (v : option json) : list (string * json) :=
  match v with
  | Some j => [(k, j)]
  | None => []
  end.

Definition asStr (j : json) : option string :=
  match j with JStr s => Some s | _ => None end.
Definition asNum (j : json) : option Z :=
  match j with JNum n => Some n | _ => None end.
Definition asArr (j : json) : option (list json) :=
  match j with JArr l => Some l | _ => None end.

(** Typed reads of a required and of an optional property. *)
Definition reqStr (k : string) (j : json) : option string := get k j ≫= asStr.
Definition reqNum (k : string) (j : json) : option Z := get k j ≫= asNum.
Definition reqArr (k : string) (j : json) : option (list json) := get k j ≫= asArr.
Definition optStr (k : string) (j : json) : option (option string) :=
  match get k j with
  | None => Some None
  | Some v => Some <$> asStr v
  end.
Definition optNum (k : string) (j : json) : option (option Z) :=
  match get k j with
  | None => Some None
  | Some v => Some <$> asNum v
  end.
Definition reqStrings (k : string) (j : json) : option (list string) :=
  reqArr k j ≫= mapM asStr.

Definition strings (l : list string) : json := JArr (JStr <$> l).

End Json.

(** ** [src/state/course_state.ts] *)
Module State.
Import Js.

Inductive Level := remember | understand | apply_ | analyze | evaluate | create.

Record LearningObjective := {
  lo_id : string;
  lo_description : string;
  level : Level;
  lectureNumber : option Z
}.

Record NotationEntry := {
  symbol : string;
  meaning : string;
  introducedIn : Z;
  context : option string
}.

Record Assumption := {
  id : string;
  a_description : string;
  a_introducedIn : Z;
  validFrom : Z;
  validTo : option Z
}.

Record LectureMetadata := {
  number : Z;
  title : string;
  objectives : list string;
  prerequisites : list string;
  notationIntroduced : list string;
  assumptionsIntroduced : list string;
  lm_files : list string
}.

Record CourseState := {
  courseName : string;
  language : Language;
  syllabus : string;
  learningObjectives : list LearningObjective;
  notationRegistry : list NotationEntry;
  assumptions : list Assumption;
  lectures : gmap Z LectureMetadata
}.

(** [new CourseState(courseName, language = 'en')] *)
Definition new (courseName : string) (language : option Language) : CourseState :=
  {| courseName := courseName;
     language := default en language;
     syllabus := EmptyString;
     learningObjectives := [];
     notationRegistry := [];
     assumptions := [];
     lectures := ∅ |}.

Definition set_notationRegistry (r : list NotationEntry) (st : CourseState) : CourseState :=
  {| courseName := courseName st; language := language st;
     syllabus := syllabus st; learningObjectives := learningObjectives st;
     notationRegistry := r;
     assumptions := assumptions st; lectures := lectures st |}.

Definition set_assumptions (a : list Assumption) (st : CourseState) : CourseState :=
  {| courseName := courseName st; language := language st;
     syllabus := syllabus st; learningObjectives := learningObjectives st;
     notationRegistry := notationRegistry st;
     assumptions := a; lectures := lectures st |}.

Definition set_lectures (l : gmap Z LectureMetadata) (st : CourseState) : CourseState :=
  {| courseName := courseName st; language := language st;
     syllabus := syllabus st; learningObjectives := learningObjectives st;
     notationRegistry := notationRegistry st;
     assumptions := assumptions st; lectures := l |}.

(** Index of the first element satisfying [p]: the element that
    [Array.prototype.find] returns, by position, so that it can be
    mutated in place. *)
Fixpoint findIndex {A} (p : A -> bool) (l : list A) : option nat :=
  match l with
  | [] => None
  | x :: l' => if p x then Some O else S <$> findIndex p l'
  end.

(** The in-place update of the [existing] entry. *)
Definition updateExisting (meaning : string) (context : option string)
    (existing : NotationEntry) : NotationEntry :=
  {| symbol := symbol existing;
     meaning := meaning;
     introducedIn := introducedIn existing;
     context := if truthy context then context else State.context existing |}.

Definition registerNotation (symbol meaning : string) (lectureNumber : Z)
    (context : option string) (st : CourseState) : CourseState :=
  match findIndex (fun n => String.eqb (State.symbol n) symbol) (notationRegistry st) with
  | Some i =>
      set_notationRegistry
        (alter (updateExisting meaning context) i (notationRegistry st)) st
  | None =>
      set_notationRegistry
        (notationRegistry st ++
           [{| symbol := symbol; meaning := meaning;
               introducedIn := lectureNumber; context := context |}]) st
  end.

Definition getNotationUpToLecture (lectureNumber : Z) (st : CourseState)
    : list NotationEntry :=
  List.filter (fun n => introducedIn n <=? lectureNumber) (notationRegistry st).

(** [registerAssumption] returns the generated id and the new state. *)
Definition registerAssumption (description : string)
    (introducedIn validFrom : Z) (validTo : option Z) (st : CourseState)
    : string * CourseState :=
  let id := "assumption_" +:+ pretty (Z.of_nat (length (assumptions st)) + 1) in
  (id,
   set_assumptions
     (assumptions st ++
        [{| id := id; a_description := description;
            a_introducedIn := introducedIn;
            validFrom := validFrom; validTo := validTo |}]) st).

Definition getActiveAssumptions (lectureNumber : Z) (st : CourseState)
    : list Assumption :=
  List.filter
    (fun a => (validFrom a <=? lectureNumber) &&
              match validTo a with
              | None => true
              | Some t => t >=? lectureNumber
              end)
    (assumptions st).

Definition updateLecture (metadata : LectureMetadata) (st : CourseState) : CourseState :=
  set_lectures (<[number metadata := metadata]> (lectures st)) st.

Definition getPrerequisites (lectureNumber : Z) (st : CourseState) : list string :=
  concat
    (map (fun i => match lectures st !! i with
                   | Some lecture => objectives lecture
                   | None => []
                   end)
         (seqZ 1 (lectureNumber - 1))).

(** *** [verifyNotationConsistency] *)

(** [Map<string, V>] with its insertion order. *)
Fixpoint mapGet {V} (k : string) (m : list (string * V)) : option V :=
  match m with
  | [] => None
  | (k', v) :: m' => if String.eqb k' k then Some v else mapGet k m'
  end.

Fixpoint mapSet {V} (k : string) (v : V) (m : list (string * V)) : list (string * V) :=
  match m with
  | [] => [(k, v)]
  | (k', v') :: m' =>
      if String.eqb k' k then (k, v) :: m' else (k', v') :: mapSet k v m'
  end.

(** [new Set(values)] with its insertion order, then [Array.from]. *)
Definition setAdd (s : list string) (x : string) : list string :=
  if existsb (String.eqb x) s then s else s ++ [x].

Definition setFrom (values : list string) : list string :=
  fold_left setAdd values [].

(** The grouping loop. *)
Definition groupStep (symbolMap : list (string * list NotationEntry))
    (entry : NotationEntry) : list (string * list NotationEntry) :=
  let entries := default [] (mapGet (symbol entry) symbolMap) in
  mapSet (symbol entry) (entries ++ [entry]) symbolMap.

Definition groupBySymbol (registry : list NotationEntry)
    : list (string * list NotationEntry) :=
  fold_left groupStep registry [].

Definition conflictMessage (symbol : string) (meanings : list string) : string :=
  "Symbol " +:+ dquote +:+ symbol +:+ dquote +:+
  " has conflicting meanings: " +:+ join ", " meanings.

(** The conflict loop. *)
Definition conflictStep (conflicts : list string)
    (kv : string * list NotationEntry) : list string :=
  let meanings := setFrom (map meaning (snd kv)) in
  if (1 <? length meanings)%nat
  then conflicts ++ [conflictMessage (fst kv) meanings]
  else conflicts.

Record ConsistencyResult := {
  consistent : bool;
  conflicts : list string
}.

Definition verifyNotationConsistency (st : CourseState) : ConsistencyResult :=
  let symbolMap := groupBySymbol (notationRegistry st) in
  let conflicts := fold_left conflictStep symbolMap [] in
  {| consistent := (length conflicts =? 0)%nat; conflicts := conflicts |}.

(** *** Persistence: [toJSON] and [fromJSON] *)
Import Json.

Definition languageName (l : Language) : string :=
  match l with en => "en" | de => "de" end.

Definition levelName (l : Level) : string :=
  match l with
  | remember => "remember" | understand => "understand"
  | apply_ => "apply" | analyze => "analyze"
  | evaluate => "evaluate" | create => "create"
  end.

Definition LearningObjective_toJSON (o : LearningObjective) : json :=
  JObj ([("id", JStr (lo_id o));
         ("description", JStr (lo_description o));
         ("level", JStr (levelName (level o)))]
        ++ optProp "lectureNumber" (JNum <$> lectureNumber o)).

Definition NotationEntry_toJSON (n : NotationEntry) : json :=
  JObj ([("symbol", JStr (symbol n));
         ("meaning", JStr (meaning n));
         ("introducedIn", JNum (introducedIn n))]
        ++ optProp "context" (JStr <$> context n)).

Definition Assumption_toJSON (a : Assumption) : json :=
  JObj ([("id", JStr (id a));
         ("description", JStr (a_description a));
         ("introducedIn", JNum (a_introducedIn a));
         ("validFrom", JNum (validFrom a))]
        ++ optProp "validTo" (JNum <$> validTo a)).

Definition LectureMetadata_toJSON (m : LectureMetadata) : json :=
  JObj [("number", JNum (number m));
        ("title", JStr (title m));
        ("objectives", strings (objectives m));
        ("prerequisites", strings (prerequisites m));
        ("notationIntroduced", strings (notationIntroduced m));
        ("assumptionsIntroduced", strings (assumptionsIntroduced m));
        ("files", strings (lm_files m))].

(** [Array.from(this.lectures.entries())], each entry a two-element array. *)
Definition entry_toJSON (kv : Z * LectureMetadata) : json :=
  JArr [JNum (fst kv); LectureMetadata_toJSON (snd kv)].

Definition toJSON (st : CourseState) : json :=
  JObj [("courseName", JStr (courseName st));
        ("language", JStr (languageName (language st)));
        ("syllabus", JStr (syllabus st));
        ("learningObjectives", JArr (LearningObjective_toJSON <$> learningObjectives st));
        ("notationRegistry", JArr (NotationEntry_toJSON <$> notationRegistry st));
        ("assumptions", JArr (Assumption_toJSON <$> assumptions st));
        ("lectures", JArr (entry_toJSON <$> map_to_list (lectures st)))].

Definition languageOf (j : json) : option Language :=
  match j with
  | JStr "en" => Some en
  | JStr "de" => Some de
  | _ => None
  end.

Definition levelOf (j : json) : option Level :=
  match j with
  | JStr "remember" => Some remember
  | JStr "understand" => Some understand
  | JStr "apply" => Some apply_
  | JStr "analyze" => Some analyze
  | JStr "evaluate" => Some evaluate
  | JStr "create" => Some create
  | _ => None
  end.

Definition LearningObjective_of (j : json) : option LearningObjective :=
  i ← reqStr "id" j;
  d ← reqStr "description" j;
  l ← get "level" j ≫= levelOf;
  n ← optNum "lectureNumber" j;
  Some {| lo_id := i; lo_description := d; level := l; lectureNumber := n |}.

Definition NotationEntry_of (j : json) : option NotationEntry :=
  s ← reqStr "symbol" j;
  m ← reqStr "meaning" j;
  i ← reqNum "introducedIn" j;
  c ← optStr "context" j;
  Some {| symbol := s; meaning := m; introducedIn := i; context := c |}.

Definition Assumption_of (j : json) : option Assumption :=
  i ← reqStr "id" j;
  d ← reqStr "description" j;
  n ← reqNum "introducedIn" j;
  f ← reqNum "validFrom" j;
  t ← optNum "validTo" j;
  Some {| id := i; a_description := d; a_introducedIn := n;
          validFrom := f; validTo := t |}.

Definition LectureMetadata_of (j : json) : option LectureMetadata :=
  n ← reqNum "number" j;
  t ← reqStr "title" j;
  o ← reqStrings "objectives" j;
  p ← reqStrings "prerequisites" j;
  ni ← reqStrings "notationIntroduced" j;
  ai ← reqStrings "assumptionsIntroduced" j;
  f ← reqStrings "files" j;
  Some {| number := n; title := t; objectives := o; prerequisites := p;
          notationIntroduced := ni; assumptionsIntroduced := ai;
          lm_files := f |}.

Definition entry_of (j : json) : option (Z * LectureMetadata) :=
  match j with
  | JArr [JNum k; v] => pair k <$> LectureMetadata_of v
  | _ => None
  end.

(** [new Map(pairs)]: entries are set in order, a later key replaces an
    earlier one. *)
Definition newMap (pairs : list (Z * LectureMetadata)) : gmap Z LectureMetadata :=
  fold_left (fun m kv => <[fst kv := snd kv]> m) pairs ∅.

(** [fromJSON]; [None] when the document does not have the shape of a
    course state. A missing [language] takes the constructor's default. *)
Definition fromJSON (data : json) : option CourseState :=
  name ← reqStr "courseName" data;
  lang ← match get "language" data with
         | None => Some None
         | Some l => Some <$> languageOf l
         end;
  let state := new name lang in
  syl ← reqStr "syllabus" data;
  los ← reqArr "learningObjectives" data ≫= mapM LearningObjective_of;
  reg ← reqArr "notationRegistry" data ≫= mapM NotationEntry_of;
  asm ← reqArr "assumptions" data ≫= mapM Assumption_of;
  lec ← reqArr "lectures" data ≫= mapM entry_of;
  Some {| courseName := courseName state;
          language := language state;
          syllabus := syl;
          learningObjectives := los;
          notationRegistry := reg;
          assumptions := asm;
          lectures := newMap lec |}.

(** *** Vocabulary for the properties of the registries *)

(** A sequence of [registerNotation] calls, given by their arguments. *)
Definition NotationCall : Type := string * string * Z * option string.

Definition registerNotations (calls : list NotationCall) (st : CourseState)
    : CourseState :=
  fold_left
    (fun st '(symbol, meaning, lectureNumber, context) =>
       registerNotation symbol meaning lectureNumber context st)
    calls st.

(** A sequence of [registerAssumption] calls, given by their arguments. *)
Definition AssumptionCall : Type := string * Z * Z * option Z.

Definition registerAssumptions (calls : list AssumptionCall) (st : CourseState)
    : CourseState :=
  fold_left
    (fun st '(description, introducedIn, validFrom, validTo) =>
       snd (registerAssumption description introducedIn validFrom validTo st))
    calls st.

(** [validFrom <= validTo] when [validTo] is present. *)
Definition validRange (validFrom : Z) (validTo : option Z) : Prop :=
  match validTo with
  | None => True
  | Some t => validFrom <= t
  end.

(** The course state of end-to-end scenario 3: symbol Q registered with
    meaning quantity in lecture 1, then with meaning quality in lecture 4. *)
Definition scenarioQ : CourseState :=
  registerNotation "Q" "quality" 4 None
    (registerNotation "Q" "quantity" 1 None (new "Micro" None)).

(** The symbols of a registry in order of first appearance, the entries
    recorded for a symbol, its distinct meanings, and the issue the check
    raises for it, if any. *)
Definition wellRanged (a : Assumption) : Prop :=
  validRange (validFrom a) (validTo a).

Definition rangeOfCall (call : AssumptionCall) : Prop :=
  validRange (snd (fst call)) (snd call).

Definition symbolsOf (registry : list NotationEntry) : list string :=
  setFrom (symbol <$> registry).

Definition entriesOf (registry : list NotationEntry) (s : string)
    : list NotationEntry :=
  List.filter (fun e => String.eqb (symbol e) s) registry.

Definition meaningsOf (registry : list NotationEntry) (s : string) : list string :=
  setFrom (meaning <$> entriesOf registry s).

(** The map built by the grouping loop, described key by key. *)
Definition groupedAs (g : string -> list NotationEntry) (keys : list string)
    : list (string * list NotationEntry) :=
  (fun s => (s, g s)) <$> keys.

Definition conflictOf (registry : list NotationEntry) (s : string) : list string :=
  if (1 <? length (meaningsOf registry s))%nat
  then [conflictMessage s (meaningsOf registry s)]
  else [].

End State.

(** ** [src/agents/master.ts] *)
Module Master.
Import Js Helpers State.

(** *** Plan *)
Record TaskPlan := {
  taskType : option TaskType;
  agents : list string;
  parallel : bool
}.

(** The four [if (...) agents.push(...)] lines of the ['mixed'] case. *)
Definition rescan (lower : string) : list string :=
  (if includes "latex" lower || includes "slide" lower then ["LatexTA"] else []) ++
  (if includes "problem" lower || includes "exercise" lower then ["ProblemSetTA"] else []) ++
  (if includes "research" lower || includes "literature" lower then ["ResearchTA"] else []) ++
  (if includes "r code" lower || includes "script" lower then ["RCodeTA"] else []).

(** The [switch (taskType)] of [createPlan]; on a value that is no case
    label nothing is pushed. *)
Definition createPlanFor (taskType : option TaskType) (task : string) : TaskPlan :=
  match taskType with
  | Some latex =>
      {| taskType := taskType; agents := ["LatexTA"]; parallel := false |}
  | Some problemset =>
      {| taskType := taskType; agents := ["ProblemSetTA"]; parallel := false |}
  | Some research =>
      {| taskType := taskType; agents := ["ResearchTA"]; parallel := false |}
  | Some rcode =>
      {| taskType := taskType; agents := ["RCodeTA"]; parallel := false |}
  | Some mixed =>
      let lower := toLowerCase task in
      let agents := rescan lower in
      let agents :=
        if (length agents =? 0)%nat
        then agents ++ ["ProblemSetTA"; "LatexTA"]
        else agents in
      {| taskType := taskType; agents := agents;
         parallel := (1 <? length agents)%nat |}
  | None =>
      {| taskType := taskType; agents := []; parallel := false |}
  end.

Definition createPlan (task : string) : TaskPlan :=
  createPlanFor (classifyTask task) task.

(** The handler that owns a category, and the keywords the ['mixed']
    case looks for on behalf of each category. *)
Definition owner (c : TaskType) : option string :=
  match c with
  | latex => Some "LatexTA"
  | problemset => Some "ProblemSetTA"
  | research => Some "ResearchTA"
  | rcode => Some "RCodeTA"
  | mixed => None
  end.

Definition knownAgents : list string :=
  ["LatexTA"; "ProblemSetTA"; "ResearchTA"; "RCodeTA"].

Definition rescanKeywords (c : TaskType) : list string :=
  match c with
  | latex => ["latex"; "slide"]
  | problemset => ["problem"; "exercise"]
  | research => ["research"; "literature"]
  | rcode => ["r code"; "script"]
  | mixed => []
  end.

(** *** Collaborators *)

(** A sub-agent is opaque to the orchestrator: [execute(task, context)]
    gives a [SubAgentResult]. *)
Definition SubAgent := string -> option string -> SubAgentResult.

Record SubAgents := {
  latexTA : SubAgent;
  problemSetTA : SubAgent;
  researchTA : SubAgent;
  rcodeTA : SubAgent
}.

(** The sandboxed file collaborator as [verify] sees it: whether
    [validatePath] accepts a path, and whether [fs.access] succeeds. *)
Record FileSystemTools := {
  insideSandbox : string -> bool;
  accessible : string -> bool
}.

(** *** Orchestrator state and its monad *)
Record Orchestrator := {
  changeLog : list ChangeLogEntry;
  lastVerification : VerificationResult;
  clock : nat
}.

Definition initial : Orchestrator :=
  {| changeLog := [];
     lastVerification := {| passed := true; issues := []; warnings := [] |};
     clock := 0 |}.

Inductive outcome (A : Type) :=
| Returned (a : A)
| Thrown (message : string).
Arguments Returned {A} a.
Arguments Thrown {A} message.

Definition M (A : Type) : Type := Orchestrator -> outcome A * Orchestrator.

Definition ret {A} (a : A) : M A := fun σ => (Returned a, σ).
Definition throw {A} (message : string) : M A := fun σ => (Thrown message, σ).
Definition bind {A B} (m : M A) (k : A -> M B) : M B :=
  fun σ => match m σ with
           | (Returned a, σ') => k a σ'
           | (Thrown e, σ') => (Thrown e, σ')
           end.

Notation "'do' x <- m ; k" := (bind m (fun x => k))
  (at level 10, x name, m at level 100, k at level 200).
Notation "m ;; k" := (bind m (fun _ => k))
  (at level 100, k at level 200, right associativity).

Definition lift {A} (o : outcome A) : M A := fun σ => (o, σ).

(** [Promise.all] over settled outcomes: all the values in order, or the
    first rejection. *)
Fixpoint promiseAll {A} (l : list (outcome A)) : outcome (list A) :=
  match l with
  | [] => Returned []
  | Returned a :: l' =>
      match promiseAll l' with
      | Returned rest => Returned (a :: rest)
      | Thrown e => Thrown e
      end
  | Thrown e :: _ => Thrown e
  end.

Fixpoint traverse {A B} (f : A -> M B) (l : list A) : M (list B) :=
  match l with
  | [] => ret []
  | x :: l' => do y <- f x; do ys <- traverse f l'; ret (y :: ys)
  end.

Section Orchestration.
Variable sub : SubAgents.
Variable fs : FileSystemTools.
Variable courseState : CourseState.
(** [new Date().toISOString()] at the n-th reading of the clock. *)
Variable toISOString : nat -> string.

Definition timestamp : M string :=
  fun σ => (Returned (toISOString (clock σ)),
            {| changeLog := changeLog σ;
               lastVerification := lastVerification σ;
               clock := S (clock σ) |}).

Definition pushChangeLog (e : ChangeLogEntry) : M unit :=
  fun σ => (Returned tt,
            {| changeLog := changeLog σ ++ [e];
               lastVerification := lastVerification σ;
               clock := clock σ |}).

Definition setLastVerification (v : VerificationResult) : M unit :=
  fun σ => (Returned tt,
            {| changeLog := changeLog σ;
               lastVerification := v;
               clock := clock σ |}).

(** [fs.exists(filePath)]: [validatePath] throws outside the sandbox. *)
Definition fs_exists (filePath : string) : M bool :=
  if insideSandbox fs filePath
  then ret (accessible fs filePath)
  else throw ("Access denied: path outside sandbox (" +:+ filePath +:+ ")").

(** *** Delegate *)

(** The [switch (agentName)] of [executeSubAgent]: the named handler's
    result, or the error thrown for an unknown name. *)
Definition dispatch (agentName task : string) (context : option string)
    : outcome SubAgentResult :=
  if String.eqb agentName "LatexTA" then Returned (latexTA sub task context)
  else if String.eqb agentName "ProblemSetTA" then Returned (problemSetTA sub task context)
  else if String.eqb agentName "ResearchTA" then Returned (researchTA sub task context)
  else if String.eqb agentName "RCodeTA" then Returned (rcodeTA sub task context)
  else Thrown ("Unknown agent: " +:+ agentName).

Definition completedDescription (task : string) : string :=
  "Completed task: " +:+ String.substring 0 60 task +:+
  (if (60 <? String.length task)%nat then "..." else EmptyString).

Definition executeSubAgent (agentName task : string) (context : option string)
    : M SubAgentResult :=
  do result <- lift (dispatch agentName task context);
  if success result then
    do now <- timestamp;
    pushChangeLog
      (createChangeLogEntry now agentName "execute"
         (default [] (files result)) (completedDescription task)) ;;
    ret result
  else ret result.

(** The state after the change-log push of a successful result. *)
Definition logged (agentName task : string) (result : SubAgentResult)
    (σ : Orchestrator) : Orchestrator :=
  {| changeLog :=
       changeLog σ ++
       [createChangeLogEntry (toISOString (clock σ)) agentName "execute"
          (default [] (files result)) (completedDescription task)];
     lastVerification := lastVerification σ;
     clock := S (clock σ) |}.

(** Whether launching a handler ends in a change-log push. *)
Definition succeeds (task : string) (context : option string)
    (agentName : string) : bool :=
  match dispatch agentName task context with
  | Returned result => success result
  | Thrown _ => false
  end.

(** Sequential mode: the [for ... of] loop. *)
Definition delegateSequential (agents : list string) (task : string)
    (context : option string) : M (list SubAgentResult) :=
  traverse (fun agentName => executeSubAgent agentName task context) agents.

(** Parallel mode: every handler is launched; each one's continuation
    (the change-log push) runs when it completes, in the order
    [completion], siblings of a failed one included; [Promise.all]
    gives the results in plan order, or the first rejection. *)
Definition delegateParallel (completion agents : list string) (task : string)
    (context : option string) : M (list SubAgentResult) :=
  fun σ =>
    let σ' := fold_left
                (fun s agentName => snd (executeSubAgent agentName task context s))
                completion σ in
    (promiseAll ((fun agentName => dispatch agentName task context) <$> agents), σ').

Definition delegateToAgents (completion : list string) (plan : TaskPlan)
    (task : string) (context : option string) : M (list SubAgentResult) :=
  if parallel plan
  then delegateParallel completion (agents plan) task context
  else delegateSequential (agents plan) task context.

(** *** Integrate *)
Record Integrated := {
  int_output : string;
  int_files : list string
}.

Definition nl : string := String (ascii_of_nat 10) EmptyString.

Definition integrateStep (acc : Integrated) (result : SubAgentResult) : Integrated :=
  let out := int_output acc +:+ "## " +:+ agentType result +:+ nl +:+ nl in
  if success result then
    {| int_output := out +:+ output result +:+ nl +:+ nl;
       int_files := int_files acc ++ default [] (files result) |}
  else
    {| int_output :=
         fold_left (fun o err => o +:+ "- " +:+ err +:+ nl)
           (default [] (errors result)) (out +:+ "**Errors:**" +:+ nl)
         +:+ nl;
       int_files := int_files acc |}.

Definition integrateResults (results : list SubAgentResult)
    (originalTask : string) : Integrated :=
  fold_left integrateStep results
    {| int_output :=
         "# Task Results" +:+ nl +:+ nl +:+
         "**Original Task:** " +:+ originalTask +:+ nl +:+ nl +:+
         "**Course:** " +:+ courseName courseState +:+
         " (" +:+ languageName (language courseState) +:+ ")" +:+ nl +:+ nl;
       int_files := [] |}.

(** *** Verify *)

(** The loop over [integrated.files], accumulating [issues]. *)
Fixpoint checkFiles (issues : list string) (files : list string)
    : M (list string) :=
  match files with
  | [] => ret issues
  | file :: rest =>
      do exists_ <- fs_exists file;
      checkFiles
        (if negb exists_ then issues ++ ["File not found: " +:+ file] else issues)
        rest
  end.

Definition verify (integrated : Integrated) : M VerificationResult :=
  let notationCheck := verifyNotationConsistency courseState in
  let issues :=
    if negb (consistent notationCheck) then conflicts notationCheck else [] in
  let warnings :=
    if (length (int_files integrated) =? 0)%nat
    then ["No files were generated"] else [] in
  do issues <- checkFiles issues (int_files integrated);
  let passed := (length issues =? 0)%nat in
  let v := {| passed := passed; issues := issues; warnings := warnings |} in
  setLastVerification v ;;
  ret v.

(** *** Final report *)

(** [generateFinalOutput]; it reads the change log of the orchestrator. *)
Definition generateFinalOutput (integrated : Integrated)
    (verification : VerificationResult) : M string :=
  fun σ =>
    let output := int_output integrated in
    let output := output +:+ nl +:+ "## Verification" +:+ nl +:+ nl in
    let output :=
      output +:+ "**Status:** " +:+
      (if passed verification then "✓ PASSED" else "✗ FAILED") +:+ nl +:+ nl in
    let output :=
      if (0 <? length (issues verification))%nat
      then fold_left (fun o issue => o +:+ "- " +:+ issue +:+ nl)
             (issues verification) (output +:+ "**Issues:**" +:+ nl) +:+ nl
      else output in
    let output :=
      if (0 <? length (warnings verification))%nat
      then fold_left (fun o warn => o +:+ "- " +:+ warn +:+ nl)
             (warnings verification) (output +:+ "**Warnings:**" +:+ nl) +:+ nl
      else output in
    let output := output +:+ nl +:+ "## Files Generated" +:+ nl +:+ nl in
    let output :=
      if (0 <? length (int_files integrated))%nat
      then fold_left (fun o file => o +:+ "- " +:+ file +:+ nl)
             (int_files integrated) output
      else output +:+ "*No files generated*" +:+ nl in
    let output := output +:+ nl +:+ "## Change Log" +:+ nl +:+ nl in
    (Returned (output +:+ formatChangeLog (changeLog σ)), σ).

(** *** The plan-delegate-integrate-verify loop *)

(** [try { body } catch (error) { handler(error.message) }]; what [body]
    did to the orchestrator before it threw stays done. *)
Definition tryCatch {A} (body : M A) (handler : string -> M A) : M A :=
  fun σ =>
    match body σ with
    | (Returned a, σ') => (Returned a, σ')
    | (Thrown message, σ') => handler message σ'
    end.

(** [execute]; [completion] is the order in which the handlers of a
    parallel plan complete. *)
Definition execute (completion : list string) (task : string)
    (context : option string) : M SubAgentResult :=
  tryCatch
    (let plan := createPlan task in
     do results <- delegateToAgents completion plan task context;
     let integrated := integrateResults results task in
     do verification <- verify integrated;
     do output <- generateFinalOutput integrated verification;
     ret {| agentType := "MasterTA";
            success := passed verification;
            output := output;
            files := Some (int_files integrated);
            errors := None |})
    (fun message =>
       ret {| agentType := "MasterTA";
              success := false;
              output := "Error: " +:+ message;
              files := Some [];
              errors := Some [message] |}).

Definition getLastVerification : M VerificationResult :=
  fun σ => (Returned (lastVerification σ), σ).

Record MasterTAResult := {
  mr_success : bool;
  mr_output : string;
  mr_changeLog : list ChangeLogEntry;
  mr_verification : VerificationResult;
  mr_files : list string
}.

Definition executeWithMetadata (completion : list string) (task : string)
    (context : option string) : M MasterTAResult :=
  do result <- execute completion task context;
  do verification <- getLastVerification;
  fun σ =>
    (Returned {| mr_success := success result;
                 mr_output := output result;
                 mr_changeLog := changeLog σ;
                 mr_verification := verification;
                 mr_files := default [] (files result) |}, σ).

(** *** Vocabulary for the properties of the loop *)

(** The issue raised for a missing file, and the error thrown for a path
    outside the sandbox. *)
Definition fileNotFound (file : string) : string := "File not found: " +:+ file.

Definition accessDenied (filePath : string) : string :=
  "Access denied: path outside sandbox (" +:+ filePath +:+ ")".

(** The section a result contributes to the combined report. *)
Definition reportSection (result : SubAgentResult) : string :=
  int_output (integrateStep {| int_output := EmptyString; int_files := [] |} result).

(** The results the handlers of the plan for [task] give, in plan order,
    and the files they produce. *)
Definition planResults (task : string) (context : option string)
    : list SubAgentResult :=
  match promiseAll ((fun agentName => dispatch agentName task context)
                      <$> agents (createPlan task)) with
  | Returned results => results
  | Thrown _ => []
  end.

Definition producedFiles (task : string) (context : option string) : list string :=
  int_files (integrateResults (planResults task context) task).

End Orchestration.

(** *** Sample collaborators for the examples *)

(** A handler that succeeds without writing a file, one that writes a
    file, and one that fails. *)
Definition quietTA : SubAgent := fun _ _ =>
  {| agentType := "LatexTA"; success := true; output := "nothing to change";
     files := Some []; errors := None |}.

Definition writingTA : SubAgent := fun _ _ =>
  {| agentType := "RCodeTA"; success := true; output := "done";
     files := Some ["demand.R"]; errors := None |}.

Definition failingTA : SubAgent := fun _ _ =>
  {| agentType := "ResearchTA"; success := false; output := EmptyString;
     files := None; errors := Some ["Claude API error: timeout"] |}.

Definition sampleAgents : SubAgents :=
  {| latexTA := quietTA; problemSetTA := writingTA;
     researchTA := failingTA; rcodeTA := writingTA |}.

Definition sampleClock (n : nat) : string := "T" +:+ pretty n.

(** Every path inside the sandbox; only [lecture1.tex] exists. *)
Definition sampleFs : FileSystemTools :=
  {| insideSandbox := fun _ => true;
     accessible := fun f => String.eqb f "lecture1.tex" |}.

End Master.

(** * Properties *)

(** ** Task classifier *)
Section Classifier.
Import Js Helpers.

Lemma lowerChar_upperChar (c : ascii) : lowerChar (upperChar c) = lowerChar c.
Proof. destruct c as [[] [] [] [] [] [] [] []]; reflexivity. Qed.

Lemma toLowerCase_toUpperCase (s : string) :
  toLowerCase (toUpperCase s) = toLowerCase s.
Proof.
  induction s as [|c s IH]; simpl; [reflexivity|].
  by rewrite lowerChar_upperChar, IH.
Qed.

Lemma toLowerCase_idempotent (s : string) :
  toLowerCase (toLowerCase s) = toLowerCase s.
Proof.
  induction s as [|c s IH]; simpl; [reflexivity|].
  rewrite IH. f_equal.
  destruct c as [[] [] [] [] [] [] [] []]; reflexivity.
Qed.

Lemma classifyTask_flags (text : string) :
  classifyTask text =
  decide4 (familyMatches latex text) (familyMatches problemset text)
          (familyMatches research text) (familyMatches rcode text).
Proof.
  unfold classifyTask, matchCount, matches, familyMatches, keywords.
  generalize (someIncluded keywords_latex (toLowerCase text)).
  generalize (someIncluded keywords_problemset (toLowerCase text)).
  generalize (someIncluded keywords_research (toLowerCase text)).
  generalize (someIncluded keywords_rcode (toLowerCase text)).
  intros [] [] [] []; reflexivity.
Qed.

Lemma matching_flags (text : string) :
  matching text =
  (if familyMatches latex text then [latex] else []) ++
  (if familyMatches problemset text then [problemset] else []) ++
  (if familyMatches research text then [research] else []) ++
  (if familyMatches rcode text then [rcode] else []).
Proof.
  unfold matching, families. simpl.
  destruct (familyMatches latex text), (familyMatches problemset text),
    (familyMatches research text), (familyMatches rcode text); reflexivity.
Qed.

Lemma classifyTask_total (text : string) : is_Some (classifyTask text).
Proof.
  rewrite classifyTask_flags.
  destruct (familyMatches latex text), (familyMatches problemset text),
    (familyMatches research text), (familyMatches rcode text); simpl; eauto.
Qed.

Lemma classifyTask_lower (text text' : string) :
  toLowerCase text' = toLowerCase text -> classifyTask text' = classifyTask text.
Proof. intros H. unfold classifyTask. by rewrite H. Qed.

(** C2. [classifyTask] is a total, deterministic function of the text
    that depends on the text only through its lowercased form (so on no
    letter's case): when exactly one of the four families has a keyword
    occurring in the lowercased text the result is that family's category;
    when no family matches, or two or more do, the result is [mixed]. *)
Theorem classifyTask_policy (text : string) :
  is_Some (classifyTask text) /\
  (forall c, matching text = [c] -> classifyTask text = Some c) /\
  (matching text = [] -> classifyTask text = Some mixed) /\
  ((2 <= length (matching text))%nat -> classifyTask text = Some mixed) /\
  (forall text', toLowerCase text' = toLowerCase text ->
                 classifyTask text' = classifyTask text) /\
  classifyTask (toUpperCase text) = classifyTask text /\
  classifyTask (toLowerCase text) = classifyTask text.
Proof.
  split; [apply classifyTask_total|].
  rewrite matching_flags, classifyTask_flags.
  repeat split.
  - intros c.
    destruct (familyMatches latex text), (familyMatches problemset text),
      (familyMatches research text), (familyMatches rcode text);
      simpl; intros H; inversion H; reflexivity.
  - destruct (familyMatches latex text), (familyMatches problemset text),
      (familyMatches research text), (familyMatches rcode text);
      simpl; intros H; inversion H; reflexivity.
  - destruct (familyMatches latex text), (familyMatches problemset text),
      (familyMatches research text), (familyMatches rcode text);
      simpl; intros H; try reflexivity; lia.
  - intros text' H. rewrite <- classifyTask_flags. by apply classifyTask_lower.
  - rewrite <- classifyTask_flags.
    apply classifyTask_lower, toLowerCase_toUpperCase.
  - rewrite <- classifyTask_flags.
    apply classifyTask_lower, toLowerCase_idempotent.
Qed.

Lemma classifyTask_policy_witness :
  matching "Fix lecture 3 SLIDES errors and unify notation" = [latex] /\
  classifyTask "Fix lecture 3 SLIDES errors and unify notation" = Some latex.
Proof.
  split; [reflexivity|].
  apply (proj1 (proj2 (classifyTask_policy
           "Fix lecture 3 SLIDES errors and unify notation")) latex).
  reflexivity.
Defined.

End Classifier.

(** ** Plan *)
Section Plan.
Import Js Helpers Master.

Lemma elem_of_pushed (b : bool) (x h : string) :
  h ∈ (if b then [x] else []) <-> b = true /\ h = x.
Proof.
  destruct b.
  - rewrite list_elem_of_singleton. intuition.
  - rewrite elem_of_nil. intuition discriminate.
Qed.

Lemma rescan_elem (lower h : string) :
  h ∈ rescan lower <->
  (includes "latex" lower || includes "slide" lower = true /\ h = "LatexTA") \/
  (includes "problem" lower || includes "exercise" lower = true /\ h = "ProblemSetTA") \/
  (includes "research" lower || includes "literature" lower = true /\ h = "ResearchTA") \/
  (includes "r code" lower || includes "script" lower = true /\ h = "RCodeTA").
Proof. unfold rescan. by rewrite !elem_of_app, !elem_of_pushed. Qed.

Lemma rescan_spec (lower : string) (c : TaskType) (h : string) :
  owner c = Some h ->
  (h ∈ rescan lower <-> someIncluded (rescanKeywords c) lower = true).
Proof.
  intros Ho. rewrite rescan_elem. unfold someIncluded.
  destruct c; simpl in *; inversion Ho; subst h;
    rewrite orb_false_r; intuition discriminate.
Qed.

Lemma rescan_known (lower h : string) : h ∈ rescan lower -> h ∈ knownAgents.
Proof.
  rewrite rescan_elem. unfold knownAgents.
  intros [[_ ->]|[[_ ->]|[[_ ->]|[_ ->]]]]; repeat constructor.
Qed.

Lemma createPlanFor_mixed_agents (task : string) :
  agents (createPlanFor (Some mixed) task) =
  match rescan (toLowerCase task) with
  | [] => ["ProblemSetTA"; "LatexTA"]
  | found => found
  end.
Proof.
  unfold createPlanFor. simpl.
  destruct (rescan (toLowerCase task)); reflexivity.
Qed.

Lemma createPlan_known (task h : string) :
  h ∈ agents (createPlan task) -> h ∈ knownAgents.
Proof.
  unfold createPlan.
  destruct (classifyTask task) as [[]|];
    try (simpl; intros H; apply list_elem_of_singleton in H; subst h;
         unfold knownAgents; repeat constructor).
  - rewrite createPlanFor_mixed_agents.
    destruct (rescan (toLowerCase task)) eqn:E.
    + intros H. apply elem_of_cons in H as [->|H];
        [|apply list_elem_of_singleton in H; subst h];
        unfold knownAgents; repeat constructor.
    + rewrite <- E. apply rescan_known.
  - simpl. intros H. by apply elem_of_nil in H.
Qed.

(** C3. For every category and every task text the plan has at least one
    handler, and so has the plan [createPlan] builds from the text alone;
    for [mixed] with no keyword found by the re-scan the plan is the
    default pair, the problem-set and the document-polish handler. *)
Theorem createPlan_never_empty (c : TaskType) (task : string) :
  agents (createPlanFor (Some c) task) <> [] /\
  agents (createPlan task) <> [] /\
  ((forall c' kw, kw ∈ rescanKeywords c' ->
                  includes kw (toLowerCase task) = false) ->
   createPlanFor (Some mixed) task =
     {| taskType := Some mixed;
        agents := ["ProblemSetTA"; "LatexTA"];
        parallel := true |} /\
   (forall h, h ∈ agents (createPlanFor (Some mixed) task) <->
              h = "LatexTA" \/ h = "ProblemSetTA")).
Proof.
  assert (Hne : forall c0, agents (createPlanFor (Some c0) task) <> []).
  { intros c0. destruct c0; try discriminate.
    rewrite createPlanFor_mixed_agents.
    destruct (rescan (toLowerCase task)); discriminate. }
  split; [apply Hne|]. split.
  - unfold createPlan.
    destruct (classifyTask_total task) as [c0 ->]. apply Hne.
  - intros Hnone.
    assert (Hr : rescan (toLowerCase task) = []).
    { unfold rescan.
      rewrite (Hnone latex "latex"), (Hnone latex "slide"),
        (Hnone problemset "problem"), (Hnone problemset "exercise"),
        (Hnone research "research"), (Hnone research "literature"),
        (Hnone rcode "r code"), (Hnone rcode "script");
        simpl; solve [reflexivity | repeat constructor]. }
    assert (Hp : createPlanFor (Some mixed) task =
                 {| taskType := Some mixed;
                    agents := ["ProblemSetTA"; "LatexTA"];
                    parallel := true |}).
    { unfold createPlanFor. rewrite Hr. reflexivity. }
    split; [exact Hp|].
    intros h. rewrite Hp. simpl.
    rewrite !elem_of_cons, elem_of_nil. tauto.
Qed.

Lemma createPlan_never_empty_witness :
  agents (createPlanFor (Some mixed) "Prepare next week") =
    ["ProblemSetTA"; "LatexTA"].
Proof.
  destruct (createPlan_never_empty mixed "Prepare next week") as (_ & _ & H).
  destruct H as [-> _]; [|reflexivity].
  intros c' kw Hkw.
  destruct c'; simpl in Hkw;
    rewrite ?elem_of_cons, ?elem_of_nil in Hkw;
    intuition (subst; reflexivity).
Defined.

(** C4 as the specification states it fails: the text is classified
    [mixed], the problem-set keyword [homework] occurs in it, and the plan
    holds the document-polish handler only. *)
Lemma createPlan_homework_not_rescanned :
  classifyTask "homework slides" = Some mixed /\
  "homework" ∈ keywords problemset /\
  includes "homework" (toLowerCase "homework slides") = true /\
  createPlan "homework slides" =
    {| taskType := Some mixed; agents := ["LatexTA"]; parallel := false |} /\
  ~ "ProblemSetTA" ∈ agents (createPlan "homework slides").
Proof.
  repeat split; try reflexivity.
  - simpl. unfold keywords_problemset. repeat constructor.
  - intros H. apply list_elem_of_In in H. vm_compute in H.
    destruct H as [H|[]]. discriminate.
Qed.

(** C4, amended. For a text classified [mixed] the plan step re-scans the
    lowercased text for its own keywords (two per category, see
    [rescanKeywords]) and the plan includes every handler for whose
    category one of these occurs in the text. *)
Theorem createPlan_mixed_rescan (text : string) (c : TaskType) (h kw : string) :
  classifyTask text = Some mixed ->
  owner c = Some h ->
  kw ∈ rescanKeywords c ->
  includes kw (toLowerCase text) = true ->
  h ∈ agents (createPlan text).
Proof.
  intros Hc Ho Hkw Hin.
  unfold createPlan. rewrite Hc, createPlanFor_mixed_agents.
  assert (Hh : h ∈ rescan (toLowerCase text)).
  { apply (rescan_spec _ c h Ho). unfold someIncluded.
    apply existsb_exists. exists kw. split; [|exact Hin].
    by apply list_elem_of_In. }
  destruct (rescan (toLowerCase text)); [by apply elem_of_nil in Hh|exact Hh].
Qed.

Lemma createPlan_mixed_rescan_witness :
  "ProblemSetTA" ∈
    agents (createPlan "Create lecture 5 slides and homework problems").
Proof.
  apply (createPlan_mixed_rescan
           "Create lecture 5 slides and homework problems"
           problemset "ProblemSetTA" "problem").
  - reflexivity.
  - reflexivity.
  - simpl. repeat constructor.
  - reflexivity.
Defined.

End Plan.

(** ** Notation registry *)
Section NotationRegistry.
Import Js State.

Lemma findIndex_Some {A} (p : A -> bool) (l : list A) (i : nat) :
  findIndex p l = Some i ->
  exists x, l !! i = Some x /\ p x = true.
Proof.
  revert i. induction l as [|y l IH]; intros i; simpl; [discriminate|].
  destruct (p y) eqn:Hp.
  - intros [= <-]. eauto.
  - destruct (findIndex p l) as [j|]; [|discriminate].
    intros [= <-]. destruct (IH j eq_refl) as (x & ? & ?). eauto.
Qed.

Lemma findIndex_None {A} (p : A -> bool) (l : list A) :
  findIndex p l = None -> forall x, x ∈ l -> p x = false.
Proof.
  induction l as [|y l IH]; simpl; intros H x Hx.
  - by apply elem_of_nil in Hx.
  - destruct (p y) eqn:Hp; [discriminate|].
    destruct (findIndex p l); [discriminate|].
    apply elem_of_cons in Hx as [->|Hx]; auto.
Qed.

Lemma symbol_updateExisting (m : string) (c : option string) (e : NotationEntry) :
  symbol (updateExisting m c e) = symbol e.
Proof. reflexivity. Qed.

Lemma symbols_alter (f : NotationEntry -> NotationEntry) (i : nat)
    (reg : list NotationEntry) :
  (forall e, symbol (f e) = symbol e) ->
  symbol <$> alter f i reg = symbol <$> reg.
Proof.
  intros Hf. revert i. induction reg as [|e reg IH]; intros [|i]; simpl; auto.
  - by rewrite Hf.
  - f_equal. apply IH.
Qed.

Lemma alter_as_insert {A} (f : A -> A) (i : nat) (l : list A) (x : A) :
  l !! i = Some x -> alter f i l = <[i := f x]> l.
Proof.
  revert i. induction l as [|y l IH]; intros [|i]; simpl; try discriminate.
  - by intros [= ->].
  - intros H. f_equal. by apply IH.
Qed.

Lemma unique_by_symbol (reg : list NotationEntry) (i j : nat) (x y : NotationEntry) :
  NoDup (symbol <$> reg) ->
  reg !! i = Some x -> reg !! j = Some y -> symbol x = symbol y -> i = j.
Proof.
  intros Hnd Hi Hj Hs.
  apply (NoDup_lookup (symbol <$> reg) i j (symbol x) Hnd).
  - by rewrite list_lookup_fmap, Hi.
  - by rewrite list_lookup_fmap, Hj, Hs.
Qed.

Lemma registerNotation_NoDup (s m : string) (l : Z) (c : option string)
    (st : CourseState) :
  NoDup (symbol <$> notationRegistry st) ->
  NoDup (symbol <$> notationRegistry (registerNotation s m l c st)).
Proof.
  intros Hnd. unfold registerNotation.
  destruct (findIndex _ _) as [i|] eqn:Hf; simpl.
  - by rewrite symbols_alter.
  - rewrite fmap_app. apply NoDup_app. split; [exact Hnd|]. split.
    + intros x Hx Hx'. simpl in Hx'. apply list_elem_of_singleton in Hx'. subst x.
      apply list_elem_of_fmap in Hx as (e & He & Hin).
      pose proof (findIndex_None _ _ Hf e Hin) as Hne. simpl in Hne.
      apply String.eqb_neq in Hne. congruence.
    + simpl. apply NoDup_singleton.
Qed.

Lemma registerNotations_NoDup (calls : list NotationCall) (st : CourseState) :
  NoDup (symbol <$> notationRegistry st) ->
  NoDup (symbol <$> notationRegistry (registerNotations calls st)).
Proof.
  revert st. induction calls as [|[[[s m] l] c] calls IH]; intros st Hnd.
  - exact Hnd.
  - apply IH. by apply registerNotation_NoDup.
Qed.

Lemma registerNotation_existing (s m : string) (l : Z) (c : option string)
    (st : CourseState) (e : NotationEntry) :
  NoDup (symbol <$> notationRegistry st) ->
  e ∈ notationRegistry st -> symbol e = s ->
  exists i,
    notationRegistry st !! i = Some e /\
    notationRegistry (registerNotation s m l c st) =
      <[i := {| symbol := s; meaning := m;
                introducedIn := introducedIn e;
                context := if truthy c then c else context e |}]>
        (notationRegistry st).
Proof.
  intros Hnd Hin Hs.
  apply list_elem_of_lookup in Hin as [j Hj].
  unfold registerNotation.
  destruct (findIndex _ _) as [i|] eqn:Hf.
  - destruct (findIndex_Some _ _ _ Hf) as (x & Hi & Hx). simpl in Hx.
    apply String.eqb_eq in Hx.
    assert (i = j) by (eapply unique_by_symbol; eauto; congruence).
    subst j. assert (x = e) by congruence. subst x.
    exists i. split; [exact Hi|]. simpl.
    rewrite (alter_as_insert _ _ _ e Hi). unfold updateExisting. by rewrite Hs.
  - apply list_elem_of_lookup_2 in Hj.
    pose proof (findIndex_None _ _ Hf e Hj) as Hne. simpl in Hne.
    apply String.eqb_neq in Hne. congruence.
Qed.

(** C10. After any sequence of [registerNotation] calls on a new course
    state (and, more generally, on any state whose registry has one entry
    per symbol) the registry has at most one entry per symbol; registering
    a symbol already present replaces the meaning of its entry, replaces
    the context when one is given, and leaves [introducedIn] as it was. *)
Theorem registerNotation_one_entry_per_symbol
    (name : string) (lang : option Language) (calls : list NotationCall)
    (st : CourseState) (s m : string) (l : Z) (c : option string)
    (e : NotationEntry) :
  NoDup (symbol <$> notationRegistry (registerNotations calls (new name lang))) /\
  (NoDup (symbol <$> notationRegistry st) ->
   NoDup (symbol <$> notationRegistry (registerNotation s m l c st)) /\
   (e ∈ notationRegistry st -> symbol e = s ->
    exists i,
      notationRegistry st !! i = Some e /\
      notationRegistry (registerNotation s m l c st) =
        <[i := {| symbol := s; meaning := m;
                  introducedIn := introducedIn e;
                  context := if truthy c then c else context e |}]>
          (notationRegistry st))).
Proof.
  split.
  - apply registerNotations_NoDup. simpl. apply NoDup_nil_2.
  - intros Hnd. split.
    + by apply registerNotation_NoDup.
    + by apply registerNotation_existing.
Qed.

Lemma registerNotation_one_entry_per_symbol_witness :
  notationRegistry
    (registerNotation "Q" "quality" 4 None
       (registerNotation "Q" "quantity" 1 (Some "demand") (new "Micro" None))) =
  [{| symbol := "Q"; meaning := "quality"; introducedIn := 1;
      context := Some "demand" |}].
Proof.
  pose (e := {| symbol := "Q"; meaning := "quantity"; introducedIn := 1;
                context := Some "demand" |}).
  destruct (registerNotation_one_entry_per_symbol "Micro" None []
              (registerNotation "Q" "quantity" 1 (Some "demand") (new "Micro" None))
              "Q" "quality" 4 None e) as [_ H].
  destruct H as [_ H].
  - simpl. apply NoDup_singleton.
  - destruct (H ltac:(simpl; apply list_elem_of_singleton; reflexivity) eq_refl)
      as (i & Hi & ->).
    destruct i as [|i]; [reflexivity|].
    simpl in Hi. destruct i; discriminate.
Defined.

End NotationRegistry.

(** ** Notation-consistency check *)
Section NotationConsistency.
Import Js State.

Lemma existsb_eqb_elem (x : string) (l : list string) :
  existsb (String.eqb x) l = true <-> x ∈ l.
Proof.
  rewrite existsb_exists. split.
  - intros (y & Hy & Heq). apply String.eqb_eq in Heq. subst y.
    by apply list_elem_of_In.
  - intros H. exists x. split; [by apply list_elem_of_In|apply String.eqb_refl].
Qed.

Lemma setAdd_elem (s : list string) (x y : string) :
  y ∈ setAdd s x <-> y ∈ s \/ y = x.
Proof.
  unfold setAdd. destruct (existsb (String.eqb x) s) eqn:E.
  - apply existsb_eqb_elem in E. split; [auto|]. intros [?| ->]; auto.
  - by rewrite elem_of_app, list_elem_of_singleton.
Qed.

Lemma setAdd_NoDup (s : list string) (x : string) :
  NoDup s -> NoDup (setAdd s x).
Proof.
  intros Hnd. unfold setAdd. destruct (existsb (String.eqb x) s) eqn:E; [done|].
  apply NoDup_app. split; [done|]. split; [|apply NoDup_singleton].
  intros y Hy Hy'. apply list_elem_of_singleton in Hy'. subst y.
  apply existsb_eqb_elem in Hy. congruence.
Qed.

Lemma setFrom_snoc (l : list string) (x : string) :
  setFrom (l ++ [x]) = setAdd (setFrom l) x.
Proof. unfold setFrom. by rewrite fold_left_app. Qed.

Lemma setFrom_elem (l : list string) (x : string) : x ∈ setFrom l <-> x ∈ l.
Proof.
  induction l as [|y l IH] using rev_ind.
  - reflexivity.
  - rewrite setFrom_snoc, setAdd_elem, IH, elem_of_app, list_elem_of_singleton.
    reflexivity.
Qed.

Lemma setFrom_NoDup (l : list string) : NoDup (setFrom l).
Proof.
  induction l as [|y l IH] using rev_ind.
  - apply NoDup_nil_2.
  - rewrite setFrom_snoc. by apply setAdd_NoDup.
Qed.

(** A list without duplicates has two or more elements exactly when it
    has two different ones. *)
Lemma two_distinct (l : list string) :
  NoDup l ->
  ((1 < length l)%nat <-> exists x y, x ∈ l /\ y ∈ l /\ x <> y).
Proof.
  intros Hnd. split.
  - destruct l as [|x [|y l]]; simpl; try lia. intros _.
    exists x, y. repeat split; [repeat constructor..|].
    apply NoDup_cons in Hnd as [Hx _]. intros ->. apply Hx. constructor.
  - intros (x & y & Hx & Hy & Hne).
    destruct l as [|a [|b l]]; simpl; try lia.
    + by apply elem_of_nil in Hx.
    + apply list_elem_of_singleton in Hx, Hy. congruence.
Qed.

Lemma mapGet_groupedAs (g : string -> list NotationEntry) (keys : list string)
    (k : string) :
  mapGet k (groupedAs g keys) =
  if existsb (String.eqb k) keys then Some (g k) else None.
Proof.
  induction keys as [|k' keys IH]; simpl; [reflexivity|].
  rewrite (String.eqb_sym k k').
  destruct (String.eqb_spec k' k) as [->|Hne]; [reflexivity|exact IH].
Qed.

Lemma groupedAs_ext (g g' : string -> list NotationEntry) (keys : list string) :
  (forall s, s ∈ keys -> g' s = g s) -> groupedAs g keys = groupedAs g' keys.
Proof.
  intros H. unfold groupedAs. apply list_fmap_ext.
  intros i s Hs. apply list_elem_of_lookup_2 in Hs. by rewrite H.
Qed.

Lemma mapSet_groupedAs (g g' : string -> list NotationEntry)
    (keys : list string) (k : string) :
  NoDup keys ->
  (forall s, s <> k -> g' s = g s) ->
  mapSet k (g' k) (groupedAs g keys) = groupedAs g' (setAdd keys k).
Proof.
  intros Hnd Hg. unfold setAdd.
  induction keys as [|k' keys IH]; simpl; [reflexivity|].
  apply NoDup_cons in Hnd as [Hk' Hnd].
  rewrite (String.eqb_sym k k').
  destruct (String.eqb_spec k' k) as [->|Hne]; simpl.
  - f_equal. apply groupedAs_ext. intros s Hs. apply Hg. congruence.
  - specialize (IH Hnd).
    destruct (existsb (String.eqb k) keys); simpl; rewrite IH, Hg; auto.
Qed.

Lemma entriesOf_snoc (p : list NotationEntry) (e : NotationEntry) (s : string) :
  entriesOf (p ++ [e]) s =
  entriesOf p s ++ (if String.eqb (symbol e) s then [e] else []).
Proof. unfold entriesOf. rewrite List.filter_app. reflexivity. Qed.

Lemma entriesOf_elem (p : list NotationEntry) (s : string) (e : NotationEntry) :
  e ∈ entriesOf p s <-> e ∈ p /\ symbol e = s.
Proof.
  unfold entriesOf.
  rewrite !list_elem_of_In, List.filter_In, String.eqb_eq. reflexivity.
Qed.

Lemma entriesOf_unknown (p : list NotationEntry) (s : string) :
  ~ s ∈ symbolsOf p -> entriesOf p s = [].
Proof.
  intros Hs. apply elem_of_nil_inv. intros e He.
  apply entriesOf_elem in He as [He <-]. apply Hs.
  apply setFrom_elem, list_elem_of_fmap. eauto.
Qed.

Lemma groupStep_grouped (p : list NotationEntry) (e : NotationEntry) :
  groupStep (groupedAs (entriesOf p) (symbolsOf p)) e =
  groupedAs (entriesOf (p ++ [e])) (symbolsOf (p ++ [e])).
Proof.
  unfold groupStep.
  assert (Hentries :
    default [] (mapGet (symbol e) (groupedAs (entriesOf p) (symbolsOf p))) ++ [e]
    = entriesOf (p ++ [e]) (symbol e)).
  { rewrite entriesOf_snoc, String.eqb_refl, mapGet_groupedAs.
    destruct (existsb _ _) eqn:E; simpl; [reflexivity|].
    rewrite entriesOf_unknown; [reflexivity|].
    intros Hin. apply existsb_eqb_elem in Hin. congruence. }
  rewrite Hentries.
  unfold symbolsOf at 2. rewrite fmap_app. simpl. rewrite setFrom_snoc.
  apply mapSet_groupedAs; [apply setFrom_NoDup|].
  intros s Hs. rewrite entriesOf_snoc.
  destruct (String.eqb_spec (symbol e) s); [congruence|].
  by rewrite app_nil_r.
Qed.

Lemma groupBySymbol_grouped (registry : list NotationEntry) :
  groupBySymbol registry = groupedAs (entriesOf registry) (symbolsOf registry).
Proof.
  unfold groupBySymbol.
  induction registry as [|e p IH] using rev_ind; [reflexivity|].
  rewrite fold_left_app. simpl. rewrite IH. apply groupStep_grouped.
Qed.

Lemma conflictStep_fold (m : list (string * list NotationEntry)) (acc : list string) :
  fold_left conflictStep m acc =
  acc ++ flat_map (fun kv => conflictStep [] kv) m.
Proof.
  revert acc. induction m as [|kv m IH]; intros acc; simpl.
  - by rewrite app_nil_r.
  - rewrite IH. unfold conflictStep.
    destruct (Nat.ltb _ _); simpl; by rewrite <- ?app_assoc.
Qed.

Lemma conflicts_by_symbol (st : CourseState) :
  conflicts (verifyNotationConsistency st) =
  flat_map (conflictOf (notationRegistry st)) (symbolsOf (notationRegistry st)).
Proof.
  unfold verifyNotationConsistency. simpl.
  rewrite conflictStep_fold, groupBySymbol_grouped. simpl.
  unfold groupedAs. generalize (symbolsOf (notationRegistry st)).
  intros keys. induction keys as [|k keys IH]; [reflexivity|].
  rewrite fmap_cons. simpl. f_equal. exact IH.
Qed.

Lemma meaningsOf_conflict (registry : list NotationEntry) (s : string) :
  (1 < length (meaningsOf registry s))%nat <->
  exists e1 e2, e1 ∈ registry /\ e2 ∈ registry /\
                symbol e1 = s /\ symbol e2 = s /\ meaning e1 <> meaning e2.
Proof.
  unfold meaningsOf. rewrite two_distinct by apply setFrom_NoDup. split.
  - intros (x & y & Hx & Hy & Hne).
    apply setFrom_elem, list_elem_of_fmap in Hx as (e1 & -> & H1).
    apply setFrom_elem, list_elem_of_fmap in Hy as (e2 & -> & H2).
    apply entriesOf_elem in H1 as [? ?], H2 as [? ?].
    exists e1, e2. auto.
  - intros (e1 & e2 & H1 & H2 & Hs1 & Hs2 & Hne).
    exists (meaning e1), (meaning e2). repeat split; [| |exact Hne].
    + apply setFrom_elem, list_elem_of_fmap. exists e1.
      split; [reflexivity|]. by apply entriesOf_elem.
    + apply setFrom_elem, list_elem_of_fmap. exists e2.
      split; [reflexivity|]. by apply entriesOf_elem.
Qed.

Lemma conflicts_nil_of_unique (st : CourseState) :
  NoDup (symbol <$> notationRegistry st) ->
  conflicts (verifyNotationConsistency st) = [].
Proof.
  intros Hnd. rewrite conflicts_by_symbol.
  apply elem_of_nil_inv. intros msg Hmsg.
  apply list_elem_of_In, in_flat_map in Hmsg as (s & _ & Hmsg).
  unfold conflictOf in Hmsg.
  destruct (Nat.ltb _ _) eqn:E; [|destruct Hmsg].
  apply Nat.ltb_lt, meaningsOf_conflict in E
    as (e1 & e2 & H1 & H2 & Hs1 & Hs2 & Hne).
  apply list_elem_of_lookup in H1 as [i Hi], H2 as [j Hj].
  assert (i = j) by (eapply unique_by_symbol; eauto; congruence).
  subst j. congruence.
Qed.

End NotationConsistency.

(** ** Verify *)
Section Verify.
Import Js State Master.

Variable fs : FileSystemTools.
Variable courseState : CourseState.

Lemma notation_issues :
  (if negb (consistent (verifyNotationConsistency courseState))
   then conflicts (verifyNotationConsistency courseState) else []) =
  conflicts (verifyNotationConsistency courseState).
Proof.
  unfold verifyNotationConsistency. simpl.
  destruct (fold_left conflictStep _ _); reflexivity.
Qed.

(** What the file-existence loop adds to [issues] when it runs through. *)
Lemma checkFiles_inside (files issues : list string) (σ : Orchestrator) :
  Forall (fun f => insideSandbox fs f = true) files ->
  checkFiles fs issues files σ =
  (Returned
     (issues ++
      ((fun f => "File not found: " +:+ f) <$>
         List.filter (fun f => negb (accessible fs f)) files)), σ).
Proof.
  intros Hin. revert issues.
  induction Hin as [|f files Hf _ IH]; intros issues; simpl.
  - by rewrite app_nil_r.
  - unfold bind, fs_exists. rewrite Hf. unfold ret at 1.
    rewrite IH. destruct (accessible fs f); simpl; [reflexivity|].
    by rewrite <- app_assoc.
Qed.

Lemma verify_returned (integrated : Integrated) (σ σ' : Orchestrator)
    (v : VerificationResult) :
  verify fs courseState integrated σ = (Returned v, σ') ->
  passed v = (length (issues v) =? 0)%nat /\ lastVerification σ' = v.
Proof.
  unfold verify, bind.
  destruct (checkFiles fs _ (int_files integrated) σ) as [[found|e] σ1];
    [|discriminate].
  unfold setLastVerification, ret. intros [= <- <-]. simpl. auto.
Qed.

Lemma verify_inside (integrated : Integrated) (σ : Orchestrator) :
  Forall (fun f => insideSandbox fs f = true) (int_files integrated) ->
  let found :=
    conflicts (verifyNotationConsistency courseState) ++
    ((fun f => "File not found: " +:+ f) <$>
       List.filter (fun f => negb (accessible fs f)) (int_files integrated)) in
  let v := {| passed := (length found =? 0)%nat;
              issues := found;
              warnings := if (length (int_files integrated) =? 0)%nat
                          then ["No files were generated"] else [] |} in
  verify fs courseState integrated σ =
  (Returned v, {| changeLog := changeLog σ; lastVerification := v;
                  clock := clock σ |}).
Proof.
  intros Hin. unfold verify, bind.
  rewrite (checkFiles_inside _ _ _ Hin), notation_issues. reflexivity.
Qed.

Lemma verify_returns (integrated : Integrated) (σ : Orchestrator) :
  Forall (fun f => insideSandbox fs f = true) (int_files integrated) ->
  exists v σ', verify fs courseState integrated σ = (Returned v, σ').
Proof. intros Hin. rewrite (verify_inside _ _ Hin). eauto. Qed.

Lemma integrateResults_files (results : list SubAgentResult) (task : string) :
  int_files (integrateResults courseState results task) =
  flat_map (fun r => if success r then default [] (files r) else []) results.
Proof.
  unfold integrateResults.
  generalize ("# Task Results" +:+ nl +:+ nl +:+
              "**Original Task:** " +:+ task +:+ nl +:+ nl +:+
              "**Course:** " +:+ courseName courseState +:+
              " (" +:+ languageName (language courseState) +:+ ")" +:+ nl +:+ nl).
  intros out.
  assert (H : forall acc,
    int_files (fold_left (integrateStep) results acc) =
    int_files acc ++
    flat_map (fun r => if success r then default [] (files r) else []) results).
  { induction results as [|r results IH]; intros acc; simpl.
    - by rewrite app_nil_r.
    - rewrite IH. unfold integrateStep.
      destruct (success r); simpl; by rewrite <- ?app_assoc. }
  by rewrite H.
Qed.

End Verify.

Section VerifyClaims.
Import Js State Master.

(** C5. Whenever [verify] returns, [passed] is true exactly when the
    issues list is empty ([verify] returns when every file of the
    integrated result lies inside the sandbox); [passed] is a function of
    the issues alone: two verification results with the same issues have
    the same [passed], whatever their warnings. *)
Theorem verify_passed_iff_no_issues
    (fs : FileSystemTools) (courseState : CourseState)
    (integrated : Integrated) (σ : Orchestrator) :
  (Forall (fun f => insideSandbox fs f = true) (int_files integrated) ->
   exists v σ', verify fs courseState integrated σ = (Returned v, σ')) /\
  (forall v σ',
     verify fs courseState integrated σ = (Returned v, σ') ->
     (passed v = true <-> issues v = []) /\
     (passed v = false <-> issues v <> []) /\
     lastVerification σ' = v /\
     (forall fs2 courseState2 integrated2 σ2 v2 σ2',
        verify fs2 courseState2 integrated2 σ2 = (Returned v2, σ2') ->
        issues v2 = issues v -> passed v2 = passed v)).
Proof.
  split; [apply verify_returns|].
  intros v σ' Hv. destruct (verify_returned _ _ _ _ _ _ Hv) as [Hp Hl].
  repeat split; auto.
  - rewrite Hp. destruct (issues v); [reflexivity|discriminate].
  - rewrite Hp. by intros ->.
  - rewrite Hp. destruct (issues v); simpl; congruence.
  - rewrite Hp. destruct (issues v); simpl; congruence.
  - intros fs2 cs2 i2 σ2 v2 σ2' Hv2 Heq.
    destruct (verify_returned _ _ _ _ _ _ Hv2) as [Hp2 _]. congruence.
Qed.

(** C9. With no file in the integrated result, [verify] returns exactly
    one warning; its issues are the notation conflicts and nothing else,
    so that [passed] is true when there is no notation conflict. The same
    holds for the result of integrating handler results none of which
    contributes a file. *)
Theorem verify_no_files
    (fs : FileSystemTools) (courseState : CourseState)
    (integrated : Integrated) (σ : Orchestrator)
    (results : list SubAgentResult) (task : string) :
  (int_files integrated = [] ->
   exists v σ',
     verify fs courseState integrated σ = (Returned v, σ') /\
     warnings v = ["No files were generated"] /\
     issues v = conflicts (verifyNotationConsistency courseState) /\
     (conflicts (verifyNotationConsistency courseState) = [] ->
      passed v = true)) /\
  ((forall r, r ∈ results -> success r = true -> default [] (files r) = []) ->
   int_files (integrateResults courseState results task) = []).
Proof.
  split.
  - intros Hnil.
    rewrite verify_inside by (rewrite Hnil; constructor).
    rewrite Hnil. simpl. rewrite app_nil_r.
    do 2 eexists. split; [reflexivity|]. simpl.
    repeat split. by intros ->.
  - intros Hr. rewrite integrateResults_files.
    induction results as [|r rs IH]; simpl; [reflexivity|].
    rewrite IH by (intros; apply Hr; [by right|done]).
    rewrite app_nil_r.
    destruct (success r) eqn:E; [|reflexivity].
    apply Hr; [by left|done].
Qed.

Lemma verify_passed_iff_no_issues_witness :
  exists v,
    fst (verify sampleFs (State.new "Micro" None)
           {| int_output := "report";
              int_files := ["lecture1.tex"; "lecture2.tex"] |}
           initial) = Returned v /\
    issues v = ["File not found: lecture2.tex"] /\
    (passed v = false <-> issues v <> []).
Proof.
  exists {| passed := false; issues := ["File not found: lecture2.tex"];
            warnings := [] |}.
  split; [reflexivity|]. split; [reflexivity|].
  refine (proj1 (proj2 (proj2 (verify_passed_iff_no_issues sampleFs
            (State.new "Micro" None)
            {| int_output := "report";
               int_files := ["lecture1.tex"; "lecture2.tex"] |}
            initial) _
            (snd (verify sampleFs (State.new "Micro" None)
                    {| int_output := "report";
                       int_files := ["lecture1.tex"; "lecture2.tex"] |}
                    initial)) _))).
  reflexivity.
Defined.

Lemma verify_no_files_witness :
  exists v σ',
    verify sampleFs (State.new "Micro" None)
      {| int_output := "report"; int_files := [] |} initial = (Returned v, σ') /\
    warnings v = ["No files were generated"] /\
    issues v = [] /\
    passed v = true.
Proof.
  destruct (proj1 (verify_no_files sampleFs (State.new "Micro" None)
                     {| int_output := "report"; int_files := [] |} initial
                     [] EmptyString) eq_refl)
    as (v & σ' & Hv & Hw & Hi & Hp).
  exists v, σ'. split; [exact Hv|]. split; [exact Hw|].
  split; [exact Hi|]. apply Hp. reflexivity.
Defined.

End VerifyClaims.

(** ** Delegate and the change log *)
Section Delegate.
Import Js Helpers State Master.

Variable sub : SubAgents.
Variable toISOString : nat -> string.

Lemma executeSubAgent_eq (agentName task : string) (context : option string)
    (σ : Orchestrator) :
  executeSubAgent sub toISOString agentName task context σ =
  match dispatch sub agentName task context with
  | Returned result =>
      (Returned result,
       if success result then logged toISOString agentName task result σ else σ)
  | Thrown e => (Thrown e, σ)
  end.
Proof.
  unfold executeSubAgent, bind, lift.
  destruct (dispatch sub agentName task context) as [result|e]; [|reflexivity].
  destruct (success result); reflexivity.
Qed.

Lemma delegateSequential_log (agents : list string) (task : string)
    (context : option string) (σ σ' : Orchestrator)
    (results : list SubAgentResult) :
  delegateSequential sub toISOString agents task context σ = (Returned results, σ') ->
  exists entries,
    changeLog σ' = changeLog σ ++ entries /\
    length entries = length (List.filter success results) /\
    agent <$> entries = List.filter (succeeds sub task context) agents.
Proof.
  unfold delegateSequential.
  revert σ results. induction agents as [|a agents IH]; intros σ results; simpl.
  - unfold ret. intros [= <- <-]. exists []. by rewrite app_nil_r.
  - unfold bind at 1. rewrite executeSubAgent_eq. unfold succeeds at 1.
    destruct (dispatch sub a task context) as [r|e]; [|discriminate].
    unfold bind at 1.
    destruct (traverse _ agents _) as [[rs|e] σ1] eqn:Ht; [|discriminate].
    unfold ret. intros [= <- <-].
    destruct (IH _ _ Ht) as (entries & Hlog & Hlen & Hag).
    destruct (success r) eqn:Hs; simpl; rewrite Hs.
    + eexists (_ :: entries). rewrite Hlog.
      split; [unfold logged; cbn [changeLog];
              rewrite <- app_assoc; reflexivity|].
      split; [simpl; by rewrite Hlen|].
      rewrite fmap_cons, Hag. reflexivity.
    + exists entries. auto.
Qed.

Lemma completion_log (completion : list string) (task : string)
    (context : option string) (σ : Orchestrator) :
  exists entries,
    changeLog
      (fold_left
         (fun s agentName =>
            snd (executeSubAgent sub toISOString agentName task context s))
         completion σ) = changeLog σ ++ entries /\
    agent <$> entries = List.filter (succeeds sub task context) completion.
Proof.
  revert σ. induction completion as [|a completion IH]; intros σ; simpl.
  - exists []. by rewrite app_nil_r.
  - rewrite executeSubAgent_eq. unfold succeeds at 1.
    destruct (dispatch sub a task context) as [r|e]; simpl.
    + destruct (success r); simpl.
      * destruct (IH (logged toISOString a task r σ)) as (entries & -> & Hag).
        eexists (_ :: entries).
        split; [unfold logged; cbn [changeLog];
              rewrite <- app_assoc; reflexivity|].
        rewrite fmap_cons, Hag. reflexivity.
      * apply IH.
    + apply IH.
Qed.

Lemma promiseAll_successes (agents : list string) (task : string)
    (context : option string) (results : list SubAgentResult) :
  promiseAll ((fun a => dispatch sub a task context) <$> agents) = Returned results ->
  length (List.filter success results) =
  length (List.filter (succeeds sub task context) agents).
Proof.
  revert results. induction agents as [|a agents IH]; intros results; simpl.
  - by intros [= <-].
  - unfold succeeds at 1.
    destruct (dispatch sub a task context) as [r|e]; [|discriminate].
    destruct (promiseAll _) as [rs|e]; [|discriminate].
    intros [= <-]. simpl. specialize (IH rs eq_refl).
    destruct (success r); simpl; by rewrite IH.
Qed.

Lemma dispatch_known (agentName task : string) (context : option string) :
  agentName ∈ knownAgents ->
  exists result, dispatch sub agentName task context = Returned result.
Proof.
  unfold knownAgents. rewrite !elem_of_cons, elem_of_nil.
  intros [->|[->|[->|[->|[]]]]]; unfold dispatch; simpl; eauto.
Qed.

Lemma delegateSequential_returns (agents : list string) (task : string)
    (context : option string) (σ : Orchestrator) :
  Forall (fun a => a ∈ knownAgents) agents ->
  exists results σ',
    delegateSequential sub toISOString agents task context σ = (Returned results, σ').
Proof.
  unfold delegateSequential. intros Hk. revert σ.
  induction Hk as [|a agents Ha _ IH]; intros σ; simpl.
  - unfold ret. eauto.
  - unfold bind at 1. rewrite executeSubAgent_eq.
    destruct (dispatch_known a task context Ha) as [r ->].
    unfold bind at 1.
    destruct (IH (if success r then logged toISOString a task r σ else σ))
      as (rs & σ1 & ->).
    unfold ret. eauto.
Qed.

Lemma promiseAll_returns (agents : list string) (task : string)
    (context : option string) :
  Forall (fun a => a ∈ knownAgents) agents ->
  exists results,
    promiseAll ((fun a => dispatch sub a task context) <$> agents) = Returned results.
Proof.
  induction 1 as [|a agents Ha _ [rs IH]]; [by exists []|].
  rewrite fmap_cons. cbn [promiseAll].
  destruct (dispatch_known a task context Ha) as [r ->].
  rewrite IH. eauto.
Qed.

Lemma delegateToAgents_returns (completion : list string) (text task : string)
    (context : option string) (σ : Orchestrator) :
  exists results σ',
    delegateToAgents sub toISOString completion (createPlan text) task context σ
      = (Returned results, σ').
Proof.
  assert (Hk : Forall (fun a => a ∈ knownAgents) (agents (createPlan text))).
  { apply Forall_forall. intros a Ha. by apply createPlan_known in Ha. }
  unfold delegateToAgents. destruct (parallel (createPlan text)).
  - unfold delegateParallel.
    destruct (promiseAll_returns _ task context Hk) as [rs ->]. eauto.
  - by apply delegateSequential_returns.
Qed.

Lemma filter_length_Permutation {A} (p : A -> bool) (l1 l2 : list A) :
  Permutation l1 l2 ->
  length (List.filter p l1) = length (List.filter p l2).
Proof.
  induction 1 as [|x l1 l2 _ IH|x y l|l1 l2 l3 _ IH1 _ IH2]; simpl.
  - reflexivity.
  - destruct (p x); simpl; by rewrite IH.
  - destruct (p x), (p y); reflexivity.
  - by rewrite IH1.
Qed.

Lemma delegateToAgents_log (completion : list string) (plan : TaskPlan)
    (task : string) (context : option string) (σ σ' : Orchestrator)
    (results : list SubAgentResult) :
  (parallel plan = true -> Permutation completion (agents plan)) ->
  delegateToAgents sub toISOString completion plan task context σ
    = (Returned results, σ') ->
  exists entries,
    changeLog σ' = changeLog σ ++ entries /\
    length entries = length (List.filter success results).
Proof.
  intros Hperm. unfold delegateToAgents.
  destruct (parallel plan).
  - unfold delegateParallel. intros [= Hres <-].
    destruct (completion_log completion task context σ) as (entries & Hlog & Hag).
    exists entries. split; [exact Hlog|].
    rewrite (promiseAll_successes _ _ _ _ Hres).
    rewrite <- (filter_length_Permutation _ _ _ (Hperm eq_refl)).
    by rewrite <- Hag, length_fmap.
  - intros Hseq.
    destruct (delegateSequential_log _ _ _ _ _ _ Hseq) as (entries & ? & ? & _).
    eauto.
Qed.

End Delegate.

Section DelegateClaims.
Import Js Helpers State Master.

(** C8 as the specification states it fails: a handler that succeeds
    without producing a file still gets its change-log entry, with an
    empty file list. *)
Lemma executeSubAgent_logs_success_without_files :
  exists result σ',
    executeSubAgent sampleAgents sampleClock
      "LatexTA" "Fix lecture 3 slides" None initial = (Returned result, σ') /\
    success result = true /\
    files result = Some [] /\
    changeLog σ' =
      [createChangeLogEntry "T0" "LatexTA" "execute" []
         "Completed task: Fix lecture 3 slides"].
Proof. do 2 eexists. repeat split. Qed.

(** C8, amended. [executeSubAgent] appends exactly one change-log entry
    for a successful result, whether or not it produced files (the entry
    carries the result's files, none when the list is absent), and none
    for a failed result; over the whole delegate step the entries appended
    are as many as the successful results, in sequential mode and, for any
    completion order of the launched handlers, in parallel mode. On a
    plan built by [createPlan] the delegate step always returns. *)
Theorem executeSubAgent_logs_each_success
    (sub : SubAgents) (toISOString : nat -> string)
    (task : string) (context : option string) (σ σ' : Orchestrator) :
  (forall completion text,
     exists results σ1,
       delegateToAgents sub toISOString completion (createPlan text)
         task context σ = (Returned results, σ1)) /\
  (forall agentName result,
     executeSubAgent sub toISOString agentName task context σ
       = (Returned result, σ') ->
     changeLog σ' =
       changeLog σ ++
       (if success result
        then [createChangeLogEntry (toISOString (clock σ)) agentName "execute"
                (default [] (files result)) (completedDescription task)]
        else [])) /\
  (forall completion plan results,
     (parallel plan = true -> Permutation completion (agents plan)) ->
     delegateToAgents sub toISOString completion plan task context σ
       = (Returned results, σ') ->
     exists entries,
       changeLog σ' = changeLog σ ++ entries /\
       length entries = length (List.filter success results)).
Proof.
  split; [intros; apply delegateToAgents_returns|].
  split.
  - intros agentName result. rewrite executeSubAgent_eq.
    destruct (dispatch sub agentName task context) as [r|e]; [|discriminate].
    intros [= -> <-].
    destruct (success result); [reflexivity|by rewrite app_nil_r].
  - intros completion plan results. apply delegateToAgents_log.
Qed.

Lemma executeSubAgent_logs_each_success_witness :
  exists entries,
    changeLog
      (snd (delegateToAgents sampleAgents sampleClock
              ["RCodeTA"; "LatexTA"; "ResearchTA"]
              {| taskType := Some mixed;
                 agents := ["LatexTA"; "ResearchTA"; "RCodeTA"];
                 parallel := true |}
              "slides, literature and r script" None initial))
    = changeLog initial ++ entries /\
    length entries = 2%nat.
Proof.
  eapply (proj2 (proj2 (executeSubAgent_logs_each_success
                   sampleAgents sampleClock
                   "slides, literature and r script" None initial _))
            ["RCodeTA"; "LatexTA"; "ResearchTA"]
            {| taskType := Some mixed;
               agents := ["LatexTA"; "ResearchTA"; "RCodeTA"];
               parallel := true |}
            [quietTA EmptyString None; failingTA EmptyString None;
             writingTA EmptyString None]).
  - intros _. simpl.
    apply perm_trans with (l' := ["LatexTA"; "RCodeTA"; "ResearchTA"]).
    + apply perm_swap.
    + apply perm_skip, perm_swap.
  - reflexivity.
Defined.

End DelegateClaims.

(** ** Claims on the registries *)
Section RegistryClaims.
Import Js Helpers State Master.

(** C1 as the specification states it fails: after the two registrations
    the registry holds one entry for Q, with the second meaning and the
    first lecture number, the check finds no conflict and [verify] reports
    no issue. *)
Lemma verify_after_reregistering_Q :
  notationRegistry scenarioQ =
    [{| symbol := "Q"; meaning := "quality"; introducedIn := 1;
        context := None |}] /\
  verifyNotationConsistency scenarioQ = {| consistent := true; conflicts := [] |} /\
  fst (verify sampleFs scenarioQ
         {| int_output := "report"; int_files := [] |} initial) =
    Returned {| passed := true; issues := [];
                warnings := ["No files were generated"] |} /\
  ~ (exists issue,
       conflicts (verifyNotationConsistency scenarioQ) = [issue]).
Proof.
  repeat split. intros [issue H]. discriminate.
Qed.

(** C1, amended. The check works on the entries the registry holds now:
    it raises one issue, naming the symbol and its distinct meanings, for
    each symbol that has entries with two different meanings (in order of
    first appearance), and [verify] reports these conflicts first among
    its issues. A registry with one entry per symbol raises none; such is
    every registry built by [registerNotation] calls on a new course state,
    where a later registration of a symbol replaces the earlier meaning. *)
Theorem notation_conflicts_of_current_registry
    (st : CourseState) (s : string)
    (name : string) (lang : option Language) (calls : list NotationCall)
    (fs : FileSystemTools) (integrated : Integrated) (σ : Orchestrator) :
  conflicts (verifyNotationConsistency st) =
    flat_map (conflictOf (notationRegistry st)) (symbolsOf (notationRegistry st)) /\
  consistent (verifyNotationConsistency st) =
    (length (conflicts (verifyNotationConsistency st)) =? 0)%nat /\
  (conflictOf (notationRegistry st) s =
     [conflictMessage s (meaningsOf (notationRegistry st) s)] <->
   exists e1 e2, e1 ∈ notationRegistry st /\ e2 ∈ notationRegistry st /\
                 symbol e1 = s /\ symbol e2 = s /\ meaning e1 <> meaning e2) /\
  (conflictOf (notationRegistry st) s = [] <->
   forall e1 e2, e1 ∈ notationRegistry st -> e2 ∈ notationRegistry st ->
                 symbol e1 = s -> symbol e2 = s -> meaning e1 = meaning e2) /\
  (Forall (fun f => insideSandbox fs f = true) (int_files integrated) ->
   exists v σ' fileIssues,
     verify fs st integrated σ = (Returned v, σ') /\
     issues v = conflicts (verifyNotationConsistency st) ++ fileIssues) /\
  (NoDup (symbol <$> notationRegistry st) ->
   conflicts (verifyNotationConsistency st) = []) /\
  conflicts (verifyNotationConsistency (registerNotations calls (new name lang))) = [].
Proof.
  split; [apply conflicts_by_symbol|]. split; [reflexivity|].
  assert (Hflag : conflictOf (notationRegistry st) s =
                    [conflictMessage s (meaningsOf (notationRegistry st) s)] <->
                  (1 < length (meaningsOf (notationRegistry st) s))%nat).
  { unfold conflictOf. destruct (Nat.ltb_spec 1 (length (meaningsOf (notationRegistry st) s))).
    - tauto.
    - split; [discriminate|lia]. }
  split; [by rewrite Hflag, meaningsOf_conflict|]. split.
  - split.
    + intros Hnil e1 e2 H1 H2 Hs1 Hs2.
      destruct (decide (meaning e1 = meaning e2)) as [|Hne]; [done|].
      assert (Hc : conflictOf (notationRegistry st) s =
                   [conflictMessage s (meaningsOf (notationRegistry st) s)]).
      { apply Hflag, meaningsOf_conflict. exists e1, e2. auto. }
      rewrite Hnil in Hc. discriminate.
    + intros Hall. unfold conflictOf.
      destruct (Nat.ltb_spec 1 (length (meaningsOf (notationRegistry st) s)))
        as [Hlt|]; [|reflexivity].
      apply meaningsOf_conflict in Hlt as (e1 & e2 & ? & ? & ? & ? & Hne).
      exfalso. apply Hne. by apply Hall.
  - split.
    + intros Hin. rewrite (verify_inside fs st integrated σ Hin).
      do 3 eexists. split; reflexivity.
    + split; [apply conflicts_nil_of_unique|].
      apply conflicts_nil_of_unique, registerNotations_NoDup.
      simpl. apply NoDup_nil_2.
Qed.

Lemma notation_conflicts_of_current_registry_witness :
  conflicts (verifyNotationConsistency scenarioQ) = [].
Proof.
  destruct (notation_conflicts_of_current_registry scenarioQ "Q" "Micro" None
              [("Q", "quantity", 1, None); ("Q", "quality", 4, None)]
              sampleFs {| int_output := "report"; int_files := [] |} initial)
    as (_ & _ & _ & _ & _ & Hunique & _).
  apply Hunique. simpl. apply NoDup_singleton.
Defined.

(** Two entries for Q with different meanings, as a persisted document
    may hold them, raise exactly one issue naming Q and both meanings. *)
Example conflict_in_loaded_registry :
  conflicts
    (verifyNotationConsistency
       (set_notationRegistry
          [{| symbol := "Q"; meaning := "quantity"; introducedIn := 1;
              context := None |};
           {| symbol := "P"; meaning := "price"; introducedIn := 1;
              context := None |};
           {| symbol := "Q"; meaning := "quality"; introducedIn := 4;
              context := None |}]
          (new "Micro" None))) =
  ["Symbol " +:+ dquote +:+ "Q" +:+ dquote +:+
   " has conflicting meanings: quantity, quality"].
Proof. reflexivity. Qed.

Lemma registerAssumption_assumptions (d : string) (i f : Z) (t : option Z)
    (st : CourseState) :
  assumptions (snd (registerAssumption d i f t st)) =
  assumptions st ++
  [{| id := "assumption_" +:+ pretty (Z.of_nat (length (assumptions st)) + 1);
      a_description := d; a_introducedIn := i;
      validFrom := f; validTo := t |}].
Proof. reflexivity. Qed.

Lemma registerAssumptions_append (calls : list AssumptionCall) (st : CourseState) :
  exists added,
    assumptions (registerAssumptions calls st) = assumptions st ++ added /\
    length added = length calls /\
    (Forall wellRanged added <-> Forall rangeOfCall calls).
Proof.
  revert st. induction calls as [|[[[d i] f] t] calls IH]; intros st.
  - exists []. rewrite app_nil_r. repeat split; constructor.
  - destruct (IH (snd (registerAssumption d i f t st)))
      as (added & Heq & Hlen & Hwf).
    change (registerAssumptions ((d, i, f, t) :: calls) st)
      with (registerAssumptions calls (snd (registerAssumption d i f t st))).
    rewrite Heq, registerAssumption_assumptions, <- app_assoc.
    eexists (_ :: added). split; [reflexivity|]. split; [simpl; by rewrite Hlen|].
    rewrite !Forall_cons, Hwf. reflexivity.
Qed.

(** C7 as the specification states it fails: [registerAssumption] takes a
    range that ends before it starts and stores it. *)
Lemma registerAssumption_accepts_inverted_range :
  assumptions
    (snd (registerAssumption "perfect competition" 2 5 (Some 3)
            (new "Micro" None))) =
    [{| id := "assumption_1"; a_description := "perfect competition";
        a_introducedIn := 2; validFrom := 5; validTo := Some 3 |}] /\
  ~ Forall wellRanged
      (assumptions
         (snd (registerAssumption "perfect competition" 2 5 (Some 3)
                 (new "Micro" None)))).
Proof.
  split; [reflexivity|].
  intros H. apply Forall_cons in H as [H _].
  unfold wellRanged, validRange in H. simpl in H. lia.
Qed.

(** C7, amended. [registerAssumption] stores the range it is given,
    unchecked: after a sequence of calls every assumption satisfies
    [validFrom <= validTo] (when [validTo] is present) exactly when the
    assumptions already present and the arguments of every call do. The
    collection is append-only: a call leaves the assumptions present as
    they are and adds one at the end, with the next sequential id, and the
    other operations of the course state do not touch the collection. *)
Theorem registerAssumption_append_only
    (calls : list AssumptionCall) (st : CourseState)
    (d : string) (i f : Z) (t : option Z)
    (s m : string) (l : Z) (c : option string) (meta : LectureMetadata) :
  (Forall wellRanged (assumptions st) ->
   Forall rangeOfCall calls ->
   Forall wellRanged (assumptions (registerAssumptions calls st))) /\
  (Forall wellRanged (assumptions (registerAssumptions calls st)) ->
   Forall wellRanged (assumptions st) /\ Forall rangeOfCall calls) /\
  (exists added,
     assumptions (registerAssumptions calls st) = assumptions st ++ added /\
     length added = length calls) /\
  registerAssumption d i f t st =
    ("assumption_" +:+ pretty (Z.of_nat (length (assumptions st)) + 1),
     set_assumptions
       (assumptions st ++
        [{| id := "assumption_" +:+ pretty (Z.of_nat (length (assumptions st)) + 1);
            a_description := d; a_introducedIn := i;
            validFrom := f; validTo := t |}]) st) /\
  assumptions (registerNotation s m l c st) = assumptions st /\
  assumptions (updateLecture meta st) = assumptions st.
Proof.
  destruct (registerAssumptions_append calls st) as (added & Heq & Hlen & Hwf).
  rewrite Heq, Forall_app, Hwf. repeat split; try tauto.
  - exists added. auto.
  - unfold registerNotation. destruct (findIndex _ _); reflexivity.
Qed.

Lemma registerAssumption_append_only_witness :
  Forall wellRanged
    (assumptions
       (registerAssumptions
          [("perfect competition", 1, 1, Some 6); ("no taxes", 2, 2, None)]
          (new "Micro" None))).
Proof.
  apply (proj1 (registerAssumption_append_only
                  [("perfect competition", 1, 1, Some 6); ("no taxes", 2, 2, None)]
                  (new "Micro" None) EmptyString 0 0 None
                  EmptyString EmptyString 0 None
                  {| number := 1; title := EmptyString; objectives := [];
                     prerequisites := []; notationIntroduced := [];
                     assumptionsIntroduced := []; lm_files := [] |})).
  - simpl. constructor.
  - repeat constructor; unfold rangeOfCall, validRange; simpl; lia.
Defined.

End RegistryClaims.

(** ** Persistence round trip *)
Section Persistence.
Import Js Json State.

Lemma mapM_strings (l : list string) : mapM asStr (JStr <$> l) = Some l.
Proof. by apply mapM_fmap_Some. Qed.

Lemma LearningObjective_roundtrip (o : LearningObjective) :
  LearningObjective_of (LearningObjective_toJSON o) = Some o.
Proof. destruct o as [i d [] [n|]]; reflexivity. Qed.

Lemma NotationEntry_roundtrip (n : NotationEntry) :
  NotationEntry_of (NotationEntry_toJSON n) = Some n.
Proof. destruct n as [s m i [c|]]; reflexivity. Qed.

Lemma Assumption_roundtrip (a : Assumption) :
  Assumption_of (Assumption_toJSON a) = Some a.
Proof. destruct a as [i d n f [t|]]; reflexivity. Qed.

Lemma LectureMetadata_roundtrip (m : LectureMetadata) :
  LectureMetadata_of (LectureMetadata_toJSON m) = Some m.
Proof.
  destruct m as [n t o p ni ai f].
  unfold LectureMetadata_of, LectureMetadata_toJSON, reqStrings, reqArr,
    reqNum, reqStr, strings, get. simpl.
  by rewrite !mapM_strings.
Qed.

Lemma entry_roundtrip (kv : Z * LectureMetadata) :
  entry_of (entry_toJSON kv) = Some kv.
Proof.
  destruct kv as [k v]. unfold entry_of, entry_toJSON. simpl.
  by rewrite LectureMetadata_roundtrip.
Qed.

Lemma newMap_snoc (l : list (Z * LectureMetadata)) (kv : Z * LectureMetadata) :
  newMap (l ++ [kv]) = <[fst kv := snd kv]> (newMap l).
Proof. unfold newMap. by rewrite fold_left_app. Qed.

Lemma newMap_list_to_map (l : list (Z * LectureMetadata)) :
  NoDup (l.*1) -> newMap l = list_to_map l.
Proof.
  induction l as [|[k v] l IH] using rev_ind; intros Hnd; [reflexivity|].
  rewrite fmap_app in Hnd. apply NoDup_app in Hnd as (Hl & Hk & _).
  rewrite newMap_snoc, IH by exact Hl. simpl.
  rewrite list_to_map_snoc; [reflexivity|].
  intros Hin. apply (Hk k Hin). simpl. by apply list_elem_of_singleton.
Qed.

Lemma newMap_entries (m : gmap Z LectureMetadata) : newMap (map_to_list m) = m.
Proof.
  rewrite newMap_list_to_map by apply NoDup_fst_map_to_list.
  apply list_to_map_to_list.
Qed.

Lemma fromJSON_toJSON (st : CourseState) : fromJSON (toJSON st) = Some st.
Proof.
  destruct st as [name lang syl los reg asm lec].
  unfold fromJSON, toJSON, reqStr, reqArr, get. simpl.
  rewrite (mapM_fmap_Some _ _ _ LearningObjective_roundtrip),
    (mapM_fmap_Some _ _ _ NotationEntry_roundtrip),
    (mapM_fmap_Some _ _ _ Assumption_roundtrip),
    (mapM_fmap_Some _ _ _ entry_roundtrip).
  simpl. rewrite newMap_entries. by destruct lang.
Qed.

(** C6. Loading what [toJSON] wrote succeeds and gives back the same
    course name, language, notation registry (entry by entry, hence as a
    set over symbol, meaning and lecture of introduction), assumption list
    and lecture mapping (key by key); in fact the whole state. *)
Theorem save_load_roundtrip (st : CourseState) :
  exists st',
    fromJSON (toJSON st) = Some st' /\
    courseName st' = courseName st /\
    language st' = language st /\
    notationRegistry st' = notationRegistry st /\
    (forall s m i,
       (exists e, e ∈ notationRegistry st' /\
                  symbol e = s /\ meaning e = m /\ introducedIn e = i) <->
       (exists e, e ∈ notationRegistry st /\
                  symbol e = s /\ meaning e = m /\ introducedIn e = i)) /\
    assumptions st' = assumptions st /\
    (forall k, lectures st' !! k = lectures st !! k) /\
    st' = st.
Proof.
  exists st. split; [apply fromJSON_toJSON|]. repeat split; auto.
Qed.

End Persistence.

(** * Further properties of the code *)

(** ** [sanitizeFilename] *)
Section Sanitize.
Import Js Helpers.

Ltac by_char c := destruct c as [[] [] [] [] [] [] [] []]; try reflexivity; try discriminate.

Lemma allowed_lower (c : ascii) : allowedChar c = true -> lowerChar c = c.
Proof. by_char c. Qed.

Lemma allowed_split (c : ascii) :
  allowedChar c = alphanumericChar c || separatorChar c.
Proof. by_char c. Qed.

Lemma alphanumeric_not_separator (c : ascii) :
  alphanumericChar c = true -> separatorChar c = false.
Proof. by_char c. Qed.

Lemma underscore_separator (c : ascii) :
  underscoreChar c = true -> separatorChar c = true.
Proof. by_char c. Qed.

Lemma underscore_is (c : ascii) : underscoreChar c = true -> c = underscore.
Proof. by_char c. Qed.

Lemma allChars_replaceDisallowed (b : bool) (s : string) :
  allChars allowedChar (replaceDisallowed b s) = true.
Proof.
  revert b. induction s as [|c s IH]; intros b; simpl; [reflexivity|].
  destruct (allowedChar c) eqn:E; simpl.
  - by rewrite E, IH.
  - destruct b; simpl; by rewrite ?IH.
Qed.

Lemma allChars_collapseUnderscores (p : ascii -> bool) (b : bool) (s : string) :
  allChars p s = true -> allChars p (collapseUnderscores b s) = true.
Proof.
  revert b. induction s as [|c s IH]; intros b; simpl; [done|].
  intros [Hc Hs]%andb_true_iff.
  destruct (underscoreChar c), b; simpl; rewrite ?Hc; simpl; auto.
Qed.

Lemma allChars_trimLeading (p : ascii -> bool) (s : string) :
  allChars p s = true -> allChars p (trimLeading s) = true.
Proof.
  induction s as [|c s IH]; simpl; [done|].
  intros H. destruct (separatorChar c); [|exact H].
  apply andb_true_iff in H as [_ H]. auto.
Qed.

Lemma allChars_trimTrailing (p : ascii -> bool) (s : string) :
  allChars p s = true -> allChars p (trimTrailing s) = true.
Proof.
  induction s as [|c s IH]; simpl; [done|].
  intros [Hc Hs]%andb_true_iff. specialize (IH Hs).
  destruct (trimTrailing s) as [|d r].
  - destruct (separatorChar c); simpl; by rewrite ?Hc.
  - simpl in *. by rewrite Hc, IH.
Qed.

Lemma doubled_collapse (b : bool) (s : string) :
  doubledUnderscore b (collapseUnderscores b s) = false.
Proof.
  revert b. induction s as [|c s IH]; intros b; simpl; [reflexivity|].
  destruct (underscoreChar c) eqn:E.
  - destruct b; simpl; [apply IH|]. rewrite E. apply IH.
  - simpl. rewrite E, andb_false_r. apply IH.
Qed.

Lemma doubled_weaken (b : bool) (s : string) :
  doubledUnderscore b s = false -> doubledUnderscore false s = false.
Proof.
  destruct s as [|c s]; simpl; [done|].
  intros [_ H]%orb_false_iff. exact H.
Qed.

Lemma doubled_trimLeading (s : string) :
  doubledUnderscore false s = false ->
  doubledUnderscore false (trimLeading s) = false.
Proof.
  induction s as [|c s IH]; [done|].
  intros H. simpl. destruct (separatorChar c); [|exact H].
  apply IH. simpl in H. by apply doubled_weaken in H.
Qed.

Lemma doubled_trimTrailing (b : bool) (s : string) :
  doubledUnderscore b s = false ->
  doubledUnderscore b (trimTrailing s) = false.
Proof.
  revert b. induction s as [|c s IH]; intros b; simpl; [done|].
  intros [Hb Hs]%orb_false_iff. specialize (IH _ Hs).
  destruct (trimTrailing s) as [|d r].
  - destruct (separatorChar c); simpl; [reflexivity|by rewrite Hb].
  - change (doubledUnderscore b (String c (String d r)))
      with ((b && underscoreChar c) ||
            doubledUnderscore (underscoreChar c) (String d r)).
    by rewrite Hb, IH.
Qed.

Lemma starts_trimLeading (s : string) :
  startsWithSeparator (trimLeading s) = false.
Proof.
  induction s as [|c s IH]; simpl; [reflexivity|].
  destruct (separatorChar c) eqn:E; [exact IH|]. simpl. exact E.
Qed.

Lemma starts_trimTrailing (s : string) :
  startsWithSeparator s = false -> startsWithSeparator (trimTrailing s) = false.
Proof.
  destruct s as [|c s]; simpl; [done|]. intros E.
  destruct (trimTrailing s); [rewrite E|]; simpl; exact E.
Qed.

Lemma ends_trimTrailing (s : string) : endsWithSeparator (trimTrailing s) = false.
Proof.
  induction s as [|c s IH]; simpl; [reflexivity|].
  destruct (trimTrailing s) as [|d r].
  - destruct (separatorChar c) eqn:E; simpl; [reflexivity|exact E].
  - exact IH.
Qed.








Lemma sanitizeFilename_clean (s : string) : cleanName (sanitizeFilename s).
Proof.
  unfold cleanName, sanitizeFilename. repeat split.
  - apply allChars_trimTrailing, allChars_trimLeading,
      allChars_collapseUnderscores, allChars_replaceDisallowed.
  - apply starts_trimTrailing, starts_trimLeading.
  - apply ends_trimTrailing.
  - apply doubled_trimTrailing, doubled_trimLeading, doubled_collapse.
Qed.

Lemma toLowerCase_allowed (s : string) :
  allChars allowedChar s = true -> toLowerCase s = s.
Proof.
  induction s as [|c s IH]; simpl; [done|].
  intros [Hc Hs]%andb_true_iff. by rewrite allowed_lower, IH.
Qed.

Lemma replaceDisallowed_allowed (b : bool) (s : string) :
  allChars allowedChar s = true -> replaceDisallowed b s = s.
Proof.
  revert b. induction s as [|c s IH]; intros b; simpl; [done|].
  intros [Hc Hs]%andb_true_iff. by rewrite Hc, IH.
Qed.

Lemma collapseUnderscores_single (b : bool) (s : string) :
  doubledUnderscore b s = false -> collapseUnderscores b s = s.
Proof.
  revert b. induction s as [|c s IH]; intros b; simpl; [done|].
  intros [Hb Hs]%orb_false_iff.
  destruct (underscoreChar c).
  - rewrite andb_true_r in Hb. subst b. by rewrite IH.
  - by rewrite IH.
Qed.

Lemma trimLeading_clean (s : string) :
  startsWithSeparator s = false -> trimLeading s = s.
Proof. destruct s as [|c s]; simpl; [done|]. by intros ->. Qed.

Lemma trimTrailing_clean (s : string) :
  endsWithSeparator s = false -> trimTrailing s = s.
Proof.
  induction s as [|c s IH]; [done|].
  destruct s as [|d r].
  - simpl. by intros ->.
  - intros H. change (endsWithSeparator (String d r) = false) in H.
    specialize (IH H).
    change (trimTrailing (String c (String d r)))
      with (match trimTrailing (String d r) with
            | EmptyString =>
                if separatorChar c then EmptyString else String c EmptyString
            | rest => String c rest
            end).
    by rewrite IH.
Qed.

Lemma sanitizeFilename_fixed (s : string) :
  cleanName s -> sanitizeFilename s = s.
Proof.
  intros (Ha & Hs & He & Hd). unfold sanitizeFilename.
  rewrite toLowerCase_allowed, replaceDisallowed_allowed,
    collapseUnderscores_single, trimLeading_clean, trimTrailing_clean; auto.
Qed.

Lemma trimLeading_empty (s : string) :
  trimLeading s = EmptyString <-> allChars separatorChar s = true.
Proof.
  induction s as [|c s IH]; simpl; [done|].
  destruct (separatorChar c); simpl; [exact IH|]. split; discriminate.
Qed.

Lemma trimTrailing_empty (s : string) :
  trimTrailing s = EmptyString <-> allChars separatorChar s = true.
Proof.
  induction s as [|c s IH]; simpl; [done|].
  destruct (trimTrailing s) as [|d r].
  - destruct (separatorChar c); simpl.
    + split; [intros _; by apply IH|done].
    + split; discriminate.
  - split; [discriminate|].
    intros [_ H]%andb_true_iff. apply IH in H. discriminate.
Qed.

Lemma allSeparators_trimLeading (s : string) :
  allChars separatorChar (trimLeading s) = allChars separatorChar s.
Proof.
  induction s as [|c s IH]; simpl; [reflexivity|].
  destruct (separatorChar c) eqn:E; simpl; [exact IH|by rewrite E].
Qed.

Lemma allSeparators_collapse (b : bool) (s : string) :
  allChars separatorChar (collapseUnderscores b s) = allChars separatorChar s.
Proof.
  revert b. induction s as [|c s IH]; intros b; simpl; [reflexivity|].
  destruct (underscoreChar c) eqn:E.
  - rewrite (underscore_separator c E). destruct b; simpl; rewrite ?IH; [done|].
    by rewrite (underscore_separator c E).
  - simpl. by rewrite IH.
Qed.

Lemma allSeparators_replace (b : bool) (s : string) :
  allChars separatorChar (replaceDisallowed b s) =
  allChars (fun c => negb (alphanumericChar c)) s.
Proof.
  revert b. induction s as [|c s IH]; intros b; simpl; [reflexivity|].
  rewrite allowed_split.
  destruct (alphanumericChar c) eqn:Ea; simpl.
  - by rewrite (alphanumeric_not_separator c Ea).
  - destruct (separatorChar c) eqn:Es; simpl.
    + by rewrite Es, IH.
    + destruct b; simpl; by rewrite IH.
Qed.


(** X2. Sanitizing is idempotent: a sanitized name is left as it is. *)
Theorem sanitizeFilename_idempotent (title : string) :
  sanitizeFilename (sanitizeFilename title) = sanitizeFilename title.
Proof. apply sanitizeFilename_fixed, sanitizeFilename_clean. Qed.

(** X3. The sanitized name is empty exactly when the lowercased title has
    no letter a-z and no digit (so such a title gives file names with an
    empty topic). *)
Theorem sanitizeFilename_empty (title : string) :
  sanitizeFilename title = EmptyString <->
  allChars (fun c => negb (alphanumericChar c)) (toLowerCase title) = true.
Proof.
  unfold sanitizeFilename.
  rewrite trimTrailing_empty, allSeparators_trimLeading,
    allSeparators_collapse, allSeparators_replace. reflexivity.
Qed.

End Sanitize.

(** ** More on the classifier and the plan *)
Section ClassifierExtension.
Import Js Helpers Master.

Lemma prefix_app_r (kw t b : string) :
  String.prefix kw t = true -> String.prefix kw (t +:+ b) = true.
Proof.
  revert t. induction kw as [|k kw IH]; intros t.
  - intros _. by destruct (t +:+ b).
  - destruct t as [|c t]; simpl; [done|].
    destruct (ascii_dec k c); [apply IH|done].
Qed.

Lemma includes_app_r (kw t b : string) :
  includes kw t = true -> includes kw (t +:+ b) = true.
Proof.
  induction t as [|c t IH].
  - simpl. rewrite orb_false_r. destruct kw; [|discriminate].
    intros _. destruct b; reflexivity.
  - change (includes kw (String c t))
      with (String.prefix kw (String c t) || includes kw t).
    change (includes kw (String c t +:+ b))
      with (String.prefix kw (String c t +:+ b) || includes kw (t +:+ b)).
    intros [H|H]%orb_true_iff.
    + by rewrite (prefix_app_r _ _ b H).
    + rewrite (IH H). apply orb_true_r.
Qed.

Lemma includes_app_l (kw a t : string) :
  includes kw t = true -> includes kw (a +:+ t) = true.
Proof.
  intros H. induction a as [|c a IH]; [exact H|].
  change (includes kw (String c a +:+ t))
    with (String.prefix kw (String c a +:+ t) || includes kw (a +:+ t)).
  rewrite IH. apply orb_true_r.
Qed.

Lemma toLowerCase_app (a b : string) :
  toLowerCase (a +:+ b) = toLowerCase a +:+ toLowerCase b.
Proof. induction a as [|c a IH]; simpl; [reflexivity|]. by rewrite IH. Qed.

Lemma familyMatches_extension (c : TaskType) (a t b : string) :
  familyMatches c t = true -> familyMatches c (a +:+ t +:+ b) = true.
Proof.
  unfold familyMatches, someIncluded. rewrite !existsb_exists.
  intros (kw & Hkw & Hin). exists kw. split; [exact Hkw|].
  rewrite !toLowerCase_app. by apply includes_app_l, includes_app_r.
Qed.

(** X4. Adding text before and after a task text never removes a family
    match: a text with two or more matching families stays Mixed however it
    is extended, and a text with one category keeps it or becomes Mixed. *)
Theorem classifyTask_extension (a t b : string) (c : TaskType) :
  ((2 <= length (matching t))%nat ->
   classifyTask (a +:+ t +:+ b) = Some mixed) /\
  (classifyTask t = Some c -> c <> mixed ->
   classifyTask (a +:+ t +:+ b) = Some c \/
   classifyTask (a +:+ t +:+ b) = Some mixed).
Proof.
  rewrite matching_flags, !classifyTask_flags.
  pose proof (familyMatches_extension latex a t b) as H1.
  pose proof (familyMatches_extension problemset a t b) as H2.
  pose proof (familyMatches_extension research a t b) as H3.
  pose proof (familyMatches_extension rcode a t b) as H4.
  destruct (familyMatches latex t), (familyMatches problemset t),
    (familyMatches research t), (familyMatches rcode t);
    try rewrite (H1 eq_refl); try rewrite (H2 eq_refl);
    try rewrite (H3 eq_refl); try rewrite (H4 eq_refl);
    clear H1 H2 H3 H4; simpl; (split; [intros Hlen|intros Hc Hne]);
    try (exfalso; lia); try (exfalso; congruence);
    try (inversion Hc; subst c);
    destruct (familyMatches latex (a +:+ t +:+ b)),
      (familyMatches problemset (a +:+ t +:+ b)),
      (familyMatches research (a +:+ t +:+ b)),
      (familyMatches rcode (a +:+ t +:+ b)); simpl; auto.
Qed.

Lemma classifyTask_extension_witness :
  classifyTask ("Please " +:+ "polish the slides" +:+ " and add homework")
    = Some latex \/
  classifyTask ("Please " +:+ "polish the slides" +:+ " and add homework")
    = Some mixed.
Proof.
  apply (proj2 (classifyTask_extension "Please " "polish the slides"
                  " and add homework" latex)).
  - reflexivity.
  - discriminate.
Defined.

Lemma rescan_NoDup (lower : string) : NoDup (rescan lower).
Proof.
  unfold rescan.
  destruct (_ || _), (_ || _), (_ || _), (_ || _); simpl;
    refine (bool_decide_unpack _ _); vm_compute; exact I.
Qed.

(** X5. Whatever the task text, the plan names known handlers only, names
    none twice, has between one and four of them, records the category the
    classifier gave, and is parallel exactly when it has more than one
    handler. *)
Theorem createPlan_shape (task : string) :
  taskType (createPlan task) = classifyTask task /\
  NoDup (agents (createPlan task)) /\
  Forall (fun h => h ∈ knownAgents) (agents (createPlan task)) /\
  (1 <= length (agents (createPlan task)) <= 4)%nat /\
  parallel (createPlan task) = (1 <? length (agents (createPlan task)))%nat.
Proof.
  assert (Hlen : forall l : list string,
            NoDup l -> Forall (fun h => h ∈ knownAgents) l -> (length l <= 4)%nat).
  { intros l Hnd Hk.
    assert (Hsub : l ⊆ knownAgents) by (intros x Hx; by apply (proj1 (Forall_forall _ _) Hk)).
    apply (submseteq_length l knownAgents), NoDup_submseteq; auto. }
  assert (Hnd : NoDup (agents (createPlan task))).
  { unfold createPlan. destruct (classifyTask task) as [[]|];
      try (simpl; refine (bool_decide_unpack _ _); vm_compute; exact I).
    rewrite createPlanFor_mixed_agents.
    destruct (rescan (toLowerCase task)) eqn:E;
      [refine (bool_decide_unpack _ _); vm_compute; exact I|].
    rewrite <- E. apply rescan_NoDup. }
  assert (Hk : Forall (fun h => h ∈ knownAgents) (agents (createPlan task))).
  { apply Forall_forall. intros h. apply createPlan_known. }
  split; [unfold createPlan; by destruct (classifyTask task) as [[]|]|].
  split; [exact Hnd|]. split; [exact Hk|]. split.
  - split; [|by apply Hlen].
    unfold createPlan. destruct (classifyTask_total task) as [c ->].
    destruct c; simpl; try lia.
    destruct (rescan (toLowerCase task)); simpl; lia.
  - unfold createPlan. destruct (classifyTask_total task) as [c ->].
    destruct c; reflexivity.
Qed.

End ClassifierExtension.

(** ** Rendering the change log *)
Section Rendering.
Import Js Helpers Master.

Lemma string_app_cons (x : ascii) (a b : string) :
  String x a +:+ b = String x (a +:+ b).
Proof. reflexivity. Qed.

Lemma string_app_nil_r (a : string) : a +:+ EmptyString = a.
Proof.
  induction a as [|x a IH]; [reflexivity|]. by rewrite string_app_cons, IH.
Qed.

Lemma string_app_assoc (a b c : string) : (a +:+ b) +:+ c = a +:+ (b +:+ c).
Proof.
  induction a as [|x a IH]; [reflexivity|]. by rewrite !string_app_cons, IH.
Qed.

Lemma string_app_length (a b : string) :
  String.length (a +:+ b) = (String.length a + String.length b)%nat.
Proof.
  induction a as [|x a IH]; [reflexivity|].
  rewrite string_app_cons. simpl. by rewrite IH.
Qed.

Lemma formatEntry_app (output : string) (entry : ChangeLogEntry) :
  formatEntry output entry = output +:+ formatEntry EmptyString entry.
Proof. reflexivity. Qed.

Lemma fold_formatEntry (entries : list ChangeLogEntry) (acc : string) :
  fold_left formatEntry entries acc = acc +:+ renderBlocks entries.
Proof.
  unfold renderBlocks. revert acc.
  induction entries as [|e entries IH]; intros acc; cbn [fold_left].
  - by rewrite string_app_nil_r.
  - rewrite (IH (formatEntry acc e)), (IH (formatEntry EmptyString e)).
    rewrite (formatEntry_app acc e). apply string_app_assoc.
Qed.

Lemma renderBlocks_app (entries more : list ChangeLogEntry) :
  renderBlocks (entries ++ more) = renderBlocks entries +:+ renderBlocks more.
Proof.
  unfold renderBlocks at 1. rewrite fold_left_app.
  fold (renderBlocks entries). apply fold_formatEntry.
Qed.

(** X6. The rendered change log is the sentinel exactly when there is no
    entry; otherwise it is the heading followed by one block per entry in
    order of appending, so that appending entries to a non-empty log
    appends their blocks to its rendering. *)
Theorem formatChangeLog_blocks (entries more : list ChangeLogEntry) :
  (formatChangeLog entries = "No changes recorded." <-> entries = []) /\
  (entries <> [] ->
   formatChangeLog entries =
     "# Change Log" +:+ newline +:+ newline +:+ renderBlocks entries /\
   formatChangeLog (entries ++ more) =
     formatChangeLog entries +:+ renderBlocks more).
Proof.
  assert (Hne : forall l, l <> [] ->
            formatChangeLog l =
            "# Change Log" +:+ newline +:+ newline +:+ renderBlocks l).
  { intros [|e l] H; [done|]. unfold formatChangeLog.
    change (length (e :: l) =? 0)%nat with false. cbv iota.
    rewrite fold_formatEntry. by rewrite !string_app_assoc. }
  split.
  - split; [|by intros ->].
    destruct entries as [|e l]; [done|].
    rewrite Hne by done. unfold newline.
    rewrite !string_app_cons. discriminate.
  - intros H. split; [by apply Hne|].
    rewrite !Hne; [|done|by destruct entries].
    by rewrite renderBlocks_app, !string_app_assoc.
Qed.

Lemma formatChangeLog_blocks_witness :
  formatChangeLog
    ([createChangeLogEntry "T0" "LatexTA" "execute" ["a.tex"] "first"] ++
     [createChangeLogEntry "T1" "RCodeTA" "execute" [] "second"]) =
  formatChangeLog [createChangeLogEntry "T0" "LatexTA" "execute" ["a.tex"] "first"]
  +:+ renderBlocks [createChangeLogEntry "T1" "RCodeTA" "execute" [] "second"].
Proof.
  apply (proj2 (formatChangeLog_blocks
                  [createChangeLogEntry "T0" "LatexTA" "execute" ["a.tex"] "first"]
                  [createChangeLogEntry "T1" "RCodeTA" "execute" [] "second"])).
  discriminate.
Defined.

Lemma substring_all (n : nat) (s : string) :
  (String.length s <= n)%nat -> String.substring 0 n s = s.
Proof.
  revert s. induction n as [|n IH]; intros [|c s]; simpl; try done; try lia.
  intros H. rewrite IH; [done|lia].
Qed.

(** X7. The description logged for a task is the task text after a fixed
    prefix when the text has at most 60 characters, and its first 60
    characters followed by an ellipsis otherwise; it never has more than 79
    characters. *)
Theorem completedDescription_truncates (task : string) :
  ((String.length task <= 60)%nat ->
   completedDescription task = "Completed task: " +:+ task) /\
  ((60 < String.length task)%nat ->
   completedDescription task =
     "Completed task: " +:+ String.substring 0 60 task +:+ "..." /\
   String.length (completedDescription task) = 79%nat) /\
  (String.length (completedDescription task) <= 79)%nat.
Proof.
  assert (H60 : (60 < String.length task)%nat ->
                String.length (String.substring 0 60 task) = 60%nat).
  { generalize 60%nat. intros n. revert task.
    induction n as [|n IH]; intros [|c s]; simpl; try lia.
    intros H. rewrite IH; lia. }
  unfold completedDescription.
  destruct (Nat.ltb_spec 60 (String.length task)) as [Hlt|Hle].
  - rewrite !string_app_length, (H60 Hlt). simpl. repeat split; lia.
  - rewrite substring_all by exact Hle.
    rewrite !string_app_length. simpl.
    split; [intros _|split; [lia|lia]].
    by rewrite string_app_nil_r.
Qed.

Lemma completedDescription_truncates_witness :
  completedDescription "Fix lecture 3 slides" =
  "Completed task: Fix lecture 3 slides".
Proof.
  apply (proj1 (completedDescription_truncates "Fix lecture 3 slides")).
  simpl. lia.
Defined.

End Rendering.

(** ** More on the course state *)
Section CourseStateQueries.
Import Js State.

Lemma findIndex_symbol (s : string) (reg : list NotationEntry) :
  (exists i, findIndex (fun n => String.eqb (symbol n) s) reg = Some i) <->
  s ∈ symbol <$> reg.
Proof.
  split.
  - intros [i Hi]. apply findIndex_Some in Hi as (x & Hx & Hs).
    apply String.eqb_eq in Hs. subst s.
    apply list_elem_of_fmap. exists x. split; [done|].
    by apply list_elem_of_lookup_2 in Hx.
  - intros Hin. destruct (findIndex _ reg) as [i|] eqn:E; [eauto|].
    apply list_elem_of_fmap in Hin as (x & -> & Hx).
    pose proof (findIndex_None _ _ E x Hx) as Hne. simpl in Hne.
    by rewrite String.eqb_refl in Hne.
Qed.

Lemma visible_alter (f : NotationEntry -> NotationEntry) (n : Z) (i : nat)
    (reg : list NotationEntry) :
  (forall e, symbol (f e) = symbol e /\ introducedIn (f e) = introducedIn e) ->
  symbol <$> List.filter (fun e => introducedIn e <=? n) (alter f i reg) =
  symbol <$> List.filter (fun e => introducedIn e <=? n) reg.
Proof.
  intros Hf. revert i. induction reg as [|e reg IH]; intros [|i]; simpl; auto.
  - destruct (Hf e) as [Hs ->].
    destruct (introducedIn e <=? n); simpl; by rewrite ?Hs.
  - destruct (introducedIn e <=? n); simpl; [f_equal|]; apply IH.
Qed.

(** X8. A symbol registered for the first time appears in the notation
    listed up to a lecture exactly from its lecture of introduction on, at
    the end of the listing. Registering a symbol again never changes which
    symbols a lecture sees, whatever lecture number the call gives; on a
    registry with one entry per symbol every lecture that sees the symbol
    then sees the new meaning. *)
Theorem notation_visibility
    (s m : string) (l : Z) (c : option string) (st : CourseState) (n : Z) :
  (~ s ∈ symbol <$> notationRegistry st ->
   getNotationUpToLecture n (registerNotation s m l c st) =
     getNotationUpToLecture n st ++
     (if l <=? n
      then [{| symbol := s; meaning := m; introducedIn := l; context := c |}]
      else [])) /\
  (s ∈ symbol <$> notationRegistry st ->
   symbol <$> getNotationUpToLecture n (registerNotation s m l c st) =
   symbol <$> getNotationUpToLecture n st) /\
  (NoDup (symbol <$> notationRegistry st) ->
   forall e, e ∈ getNotationUpToLecture n (registerNotation s m l c st) ->
             symbol e = s -> meaning e = m).
Proof.
  unfold getNotationUpToLecture. repeat split.
  - intros Hnew. unfold registerNotation.
    destruct (findIndex _ _) as [i|] eqn:E.
    + exfalso. apply Hnew, findIndex_symbol. eauto.
    + simpl. rewrite List.filter_app. simpl. by destruct (l <=? n).
  - intros Hold. apply findIndex_symbol in Hold as [i Hi].
    unfold registerNotation. rewrite Hi. simpl.
    apply visible_alter. intros e. split; reflexivity.
  - intros Hnd e He Hs.
    apply list_elem_of_In, List.filter_In in He as [He _].
    apply list_elem_of_In in He.
    pose proof (registerNotation_NoDup s m l c st Hnd) as Hnd'.
    assert (Hm : exists e', e' ∈ notationRegistry (registerNotation s m l c st) /\
                            symbol e' = s /\ meaning e' = m).
    { unfold registerNotation. destruct (findIndex _ _) as [i|] eqn:E; simpl.
      - destruct (findIndex_Some _ _ _ E) as (x & Hx & Hsx). simpl in Hsx.
        apply String.eqb_eq in Hsx.
        exists (updateExisting m c x). split; [|by split].
        rewrite (alter_as_insert _ _ _ x Hx).
        apply list_elem_of_insert. by apply lookup_lt_Some in Hx.
      - eexists. split; [apply elem_of_app; right; by apply list_elem_of_singleton|].
        by split. }
    destruct Hm as (e' & He' & Hs' & Hm').
    apply list_elem_of_lookup in He as [i Hi], He' as [j Hj].
    assert (i = j) by (eapply unique_by_symbol; eauto; congruence).
    subst j. congruence.
Qed.

Lemma notation_visibility_witness :
  symbol <$> getNotationUpToLecture 2 scenarioQ = ["Q"].
Proof.
  pose proof (proj1 (proj2 (notation_visibility "Q" "quality" 4 None
                (registerNotation "Q" "quantity" 1 None (new "Micro" None)) 2)))
    as H.
  unfold scenarioQ. rewrite H; [reflexivity|].
  simpl. by apply list_elem_of_singleton.
Defined.

(** X9. A newly registered assumption is active at a lecture exactly when
    the lecture lies in the range given ([validFrom] up to [validTo], or
    without end); the lecture of introduction plays no part, and the
    assumptions active before stay so. An assumption registered with a
    range that ends before it starts is stored and never active. *)
Theorem assumption_activity
    (d : string) (i f : Z) (t : option Z) (st : CourseState) (n : Z) :
  getActiveAssumptions n (snd (registerAssumption d i f t st)) =
    getActiveAssumptions n st ++
    (if (f <=? n) && match t with None => true | Some v => n <=? v end
     then [{| id := fst (registerAssumption d i f t st);
              a_description := d; a_introducedIn := i;
              validFrom := f; validTo := t |}]
     else []) /\
  (forall v, t = Some v -> v < f ->
     getActiveAssumptions n (snd (registerAssumption d i f t st)) =
     getActiveAssumptions n st).
Proof.
  assert (H : getActiveAssumptions n (snd (registerAssumption d i f t st)) =
    getActiveAssumptions n st ++
    (if (f <=? n) && match t with None => true | Some v => n <=? v end
     then [{| id := fst (registerAssumption d i f t st);
              a_description := d; a_introducedIn := i;
              validFrom := f; validTo := t |}]
     else [])).
  { unfold getActiveAssumptions. rewrite registerAssumption_assumptions.
    rewrite List.filter_app. f_equal. simpl.
    destruct t as [v|]; [|reflexivity].
    rewrite Z.geb_leb. reflexivity. }
  split; [exact H|].
  intros v -> Hlt. rewrite H.
  destruct (Z.leb_spec f n), (Z.leb_spec n v); simpl;
    try apply app_nil_r; lia.
Qed.

Lemma assumption_activity_witness :
  getActiveAssumptions 4
    (snd (registerAssumption "perfect competition" 2 5 (Some 3)
            (new "Micro" None))) = [].
Proof.
  rewrite (proj2 (assumption_activity "perfect competition" 2 5 (Some 3)
                    (new "Micro" None) 4) 3 eq_refl); [reflexivity|lia].
Defined.

Lemma registerAssumptions_ids (calls : list AssumptionCall) (st : CourseState) :
  id <$> assumptions (registerAssumptions calls st) =
  (id <$> assumptions st) ++
  ((fun k : nat => "assumption_" +:+ pretty (Z.of_nat k)) <$>
     seq (S (length (assumptions st))) (length calls)).
Proof.
  revert st. induction calls as [|[[[d i] f] t] calls IH]; intros st.
  - simpl. by rewrite app_nil_r.
  - change (registerAssumptions ((d, i, f, t) :: calls) st)
      with (registerAssumptions calls (snd (registerAssumption d i f t st))).
    rewrite IH, registerAssumption_assumptions, fmap_app, length_app.
    simpl. rewrite <- app_assoc. f_equal. simpl. f_equal.
    + do 2 f_equal. lia.
    + by rewrite Nat.add_1_r.
Qed.

(** X10. The assumptions registered on a new course state get the ids
    assumption_1, assumption_2, ... in order of registration, all
    different; on any state the ids added continue from the number of
    assumptions present. *)
Theorem assumption_ids_sequential
    (calls : list AssumptionCall) (st : CourseState)
    (name : string) (lang : option Language) :
  id <$> assumptions (registerAssumptions calls (new name lang)) =
    (fun k : nat => "assumption_" +:+ pretty (Z.of_nat k)) <$>
      seq 1 (length calls) /\
  NoDup (id <$> assumptions (registerAssumptions calls (new name lang))) /\
  id <$> assumptions (registerAssumptions calls st) =
    (id <$> assumptions st) ++
    ((fun k : nat => "assumption_" +:+ pretty (Z.of_nat k)) <$>
       seq (S (length (assumptions st))) (length calls)).
Proof.
  pose proof (registerAssumptions_ids calls (new name lang)) as Hnew.
  simpl in Hnew. split; [exact Hnew|]. split; [|apply registerAssumptions_ids].
  rewrite Hnew. apply NoDup_fmap_2_strong; [|apply NoDup_seq].
  intros x y _ _ Heq. apply (inj (String.app "assumption_")) in Heq.
  apply (inj pretty) in Heq. lia.
Qed.

End CourseStateQueries.

Section Lectures.
Import Js State.

Lemma getPrerequisites_ext (n : Z) (st st' : CourseState) :
  (forall i, 1 <= i < n -> lectures st' !! i = lectures st !! i) ->
  getPrerequisites n st' = getPrerequisites n st.
Proof.
  intros H. unfold getPrerequisites. f_equal.
  apply map_ext_in. intros i Hi.
  apply list_elem_of_In, elem_of_seqZ in Hi. rewrite H; [done|lia].
Qed.

(** X11. The prerequisites of a lecture are the objectives of the lectures
    numbered 1 up to the one before it, in that order, lectures without
    metadata contributing nothing: none for lecture 1 or below, and those
    of the next lecture extend them by the objectives of the lecture
    itself. Storing the metadata of a lecture replaces what was stored
    under its number and changes the prerequisites of later lectures
    only. *)
Theorem getPrerequisites_progression
    (n : Z) (st : CourseState) (meta : LectureMetadata) :
  (n <= 1 -> getPrerequisites n st = []) /\
  (1 <= n ->
   getPrerequisites (n + 1) st =
     getPrerequisites n st ++
     match lectures st !! n with
     | Some lecture => objectives lecture
     | None => []
     end) /\
  lectures (updateLecture meta st) !! number meta = Some meta /\
  (~ (1 <= number meta < n) ->
   getPrerequisites n (updateLecture meta st) = getPrerequisites n st) /\
  (1 <= number meta < n ->
   lectures st !! number meta = None ->
   Permutation (getPrerequisites n (updateLecture meta st))
               (getPrerequisites n st ++ objectives meta)).
Proof.
  split; [|split; [|split; [|split]]].
  - intros H. unfold getPrerequisites. rewrite seqZ_nil by lia. reflexivity.
  - intros H. unfold getPrerequisites.
    replace (n + 1 - 1) with ((n - 1) + 1) by lia.
    rewrite seqZ_app by lia.
    rewrite map_app, concat_app.
    replace (1 + (n - 1)) with n by lia.
    rewrite (seqZ_cons n 1) by lia.
    rewrite (seqZ_nil (Z.succ n) (Z.pred 1)) by lia.
    simpl. by rewrite app_nil_r.
  - simpl. apply lookup_insert_eq.
  - intros H. apply getPrerequisites_ext. intros i Hi. simpl.
    apply lookup_insert_ne. lia.
  - intros Hk Hnone. unfold getPrerequisites.
    set (g := fun (m : gmap Z LectureMetadata) i =>
                match m !! i with
                | Some lecture => objectives lecture
                | None => []
                end).
    change (Permutation
              (concat (map (g (lectures (updateLecture meta st))) (seqZ 1 (n - 1))))
              (concat (map (g (lectures st)) (seqZ 1 (n - 1))) ++ objectives meta)).
    replace (n - 1) with ((number meta - 1) + (1 + (n - 1 - number meta))) by lia.
    rewrite seqZ_app by lia.
    replace (1 + (number meta - 1)) with (number meta) by lia.
    rewrite (seqZ_cons (number meta)) by lia.
    rewrite !map_app, !concat_app, !map_cons, !concat_cons.
    assert (Hsame : forall l, ~ number meta ∈ l ->
              map (g (lectures (updateLecture meta st))) l = map (g (lectures st)) l).
    { intros l Hl. apply map_ext_in. intros i Hi. unfold g. simpl.
      rewrite lookup_insert_ne; [done|].
      intros <-. by apply Hl, list_elem_of_In. }
    assert (Hg1 : g (lectures (updateLecture meta st)) (number meta) = objectives meta).
    { unfold g. simpl. by rewrite lookup_insert_eq. }
    assert (Hg2 : g (lectures st) (number meta) = []).
    { unfold g. by rewrite Hnone. }
    rewrite Hg1, Hg2, !Hsame.
    + simpl. rewrite <- app_assoc.
      apply Permutation_app_head, Permutation_app_comm.
    + rewrite elem_of_seqZ. lia.
    + rewrite elem_of_seqZ. lia.
Qed.

Lemma getPrerequisites_progression_witness :
  getPrerequisites 1
    (updateLecture
       {| number := 1; title := "Demand"; objectives := ["derive demand"];
          prerequisites := []; notationIntroduced := [];
          assumptionsIntroduced := []; lm_files := [] |}
       (new "Micro" None)) = [].
Proof.
  apply (proj1 (getPrerequisites_progression 1
                  (updateLecture
                     {| number := 1; title := "Demand";
                        objectives := ["derive demand"];
                        prerequisites := []; notationIntroduced := [];
                        assumptionsIntroduced := []; lm_files := [] |}
                     (new "Micro" None))
                  {| number := 1; title := "Demand";
                     objectives := ["derive demand"];
                     prerequisites := []; notationIntroduced := [];
                     assumptionsIntroduced := []; lm_files := [] |})).
  lia.
Defined.

End Lectures.

Section Consistency.
Import Js State.

Lemma conflicts_nil_iff (registry : list NotationEntry) :
  flat_map (conflictOf registry) (symbolsOf registry) = [] <->
  forall e1 e2, e1 ∈ registry -> e2 ∈ registry ->
                symbol e1 = symbol e2 -> meaning e1 = meaning e2.
Proof.
  split.
  - intros Hnil e1 e2 H1 H2 Hs.
    destruct (decide (meaning e1 = meaning e2)) as [|Hne]; [done|].
    assert (Hflag : (1 < length (meaningsOf registry (symbol e1)))%nat).
    { apply meaningsOf_conflict. exists e1, e2. auto. }
    assert (Hin : In (conflictMessage (symbol e1) (meaningsOf registry (symbol e1)))
                     (flat_map (conflictOf registry) (symbolsOf registry))).
    { apply in_flat_map. exists (symbol e1). split.
      - apply list_elem_of_In, setFrom_elem, list_elem_of_fmap. eauto.
      - unfold conflictOf. apply Nat.ltb_lt in Hflag. rewrite Hflag. by left. }
    rewrite Hnil in Hin. destruct Hin.
  - intros Hall. apply elem_of_nil_inv. intros msg Hmsg.
    apply list_elem_of_In, in_flat_map in Hmsg as (s & _ & Hmsg).
    unfold conflictOf in Hmsg.
    destruct (Nat.ltb _ _) eqn:E; [|destruct Hmsg].
    apply Nat.ltb_lt, meaningsOf_conflict in E
      as (e1 & e2 & H1 & H2 & Hs1 & Hs2 & Hne).
    apply Hne, Hall; auto. congruence.
Qed.

Lemma consistent_agree (st : CourseState) :
  consistent (verifyNotationConsistency st) = true <->
  forall e1 e2, e1 ∈ notationRegistry st -> e2 ∈ notationRegistry st ->
                symbol e1 = symbol e2 -> meaning e1 = meaning e2.
Proof.
  rewrite <- conflicts_nil_iff, <- conflicts_by_symbol.
  unfold verifyNotationConsistency. simpl.
  destruct (fold_left conflictStep _ _); simpl; split; congruence.
Qed.

(** X12. The registry is reported consistent exactly when any two of its
    entries with the same symbol have the same meaning; so entries that
    repeat a symbol with one meaning raise nothing, and the verdict does
    not depend on the order of the entries. *)
Theorem consistent_iff_meanings_agree (st st' : CourseState) :
  (consistent (verifyNotationConsistency st) = true <->
   forall e1 e2, e1 ∈ notationRegistry st -> e2 ∈ notationRegistry st ->
                 symbol e1 = symbol e2 -> meaning e1 = meaning e2) /\
  (Permutation (notationRegistry st) (notationRegistry st') ->
   consistent (verifyNotationConsistency st) =
   consistent (verifyNotationConsistency st')).
Proof.
  split; [apply consistent_agree|].
  intros Hp.
  assert (H : consistent (verifyNotationConsistency st) = true <->
              consistent (verifyNotationConsistency st') = true).
  { rewrite !consistent_agree. split; intros Hall e1 e2 H1 H2.
    - apply Hall; by rewrite Hp.
    - apply Hall; by rewrite <- Hp. }
  destruct (consistent (verifyNotationConsistency st)),
    (consistent (verifyNotationConsistency st')); try reflexivity.
  - symmetry. by apply H.
  - by apply H.
Qed.

Lemma consistent_iff_meanings_agree_witness :
  consistent
    (verifyNotationConsistency
       (set_notationRegistry
          [{| symbol := "Q"; meaning := "quantity"; introducedIn := 1;
              context := None |};
           {| symbol := "Q"; meaning := "quality"; introducedIn := 4;
              context := None |}]
          (new "Micro" None))) =
  consistent
    (verifyNotationConsistency
       (set_notationRegistry
          [{| symbol := "Q"; meaning := "quality"; introducedIn := 4;
              context := None |};
           {| symbol := "Q"; meaning := "quantity"; introducedIn := 1;
              context := None |}]
          (new "Micro" None))).
Proof.
  apply (proj2 (consistent_iff_meanings_agree _ _)).
  simpl. apply perm_swap.
Defined.

End Consistency.

(** ** More on verify, integrate and delegate *)
Section VerifyEdges.
Import Js Helpers State Master.

Variable fs : FileSystemTools.
Variable courseState : CourseState.

Lemma checkFiles_app (pre rest issues : list string) (σ : Orchestrator) :
  Forall (fun f => insideSandbox fs f = true) pre ->
  checkFiles fs issues (pre ++ rest) σ =
  checkFiles fs
    (issues ++ (fileNotFound <$> List.filter (fun f => negb (accessible fs f)) pre))
    rest σ.
Proof.
  intros Hin. revert issues.
  induction Hin as [|f pre Hf _ IH]; intros issues.
  - simpl. by rewrite app_nil_r.
  - change ((f :: pre) ++ rest) with (f :: (pre ++ rest)).
    cbn [checkFiles]. unfold bind at 1, fs_exists at 1. rewrite Hf.
    unfold ret at 1. rewrite IH. f_equal.
    cbn [List.filter]. destruct (accessible fs f); simpl; [done|].
    by rewrite <- app_assoc.
Qed.

Lemma checkFiles_outside (f : string) (rest issues : list string)
    (σ : Orchestrator) :
  insideSandbox fs f = false ->
  checkFiles fs issues (f :: rest) σ = (Thrown (accessDenied f), σ).
Proof.
  intros Hf. cbn [checkFiles]. unfold bind, fs_exists. by rewrite Hf.
Qed.

Lemma verify_outside (integrated : Integrated) (pre post : list string)
    (f : string) (σ : Orchestrator) :
  int_files integrated = pre ++ f :: post ->
  Forall (fun g => insideSandbox fs g = true) pre ->
  insideSandbox fs f = false ->
  verify fs courseState integrated σ = (Thrown (accessDenied f), σ).
Proof.
  intros Hfiles Hpre Hf. unfold verify, bind at 1.
  by rewrite Hfiles, (checkFiles_app _ _ _ _ Hpre), (checkFiles_outside _ _ _ _ Hf).
Qed.

Lemma forallb_accessible (files : list string) :
  List.filter (fun f => negb (accessible fs f)) files = [] <->
  forallb (accessible fs) files = true.
Proof.
  induction files as [|f files IH]; simpl; [done|].
  destruct (accessible fs f); simpl; [exact IH|]. split; discriminate.
Qed.

End VerifyEdges.

Section VerifyEdgeClaims.
Import Js Helpers State Master.

Lemma verify_report_core
    (fs : FileSystemTools) (courseState : CourseState)
    (integrated : Integrated) (σ : Orchestrator) :
  Forall (fun f => insideSandbox fs f = true) (int_files integrated) ->
  exists v σ',
    verify fs courseState integrated σ = (Returned v, σ') /\
    issues v =
      conflicts (verifyNotationConsistency courseState) ++
      (fileNotFound <$>
         List.filter (fun f => negb (accessible fs f)) (int_files integrated)) /\
    (warnings v = [] <-> int_files integrated <> []) /\
    (passed v = true <->
     conflicts (verifyNotationConsistency courseState) = [] /\
     forallb (accessible fs) (int_files integrated) = true) /\
    changeLog σ' = changeLog σ /\ clock σ' = clock σ.
Proof.
  intros Hin.
  pose proof (verify_inside fs courseState integrated σ Hin) as Hv.
  cbv zeta in Hv. revert Hv.
  generalize (conflicts (verifyNotationConsistency courseState)).
  intros cs Hv. rewrite Hv. clear Hv.
  do 2 eexists. split; [reflexivity|].
  cbn [issues warnings passed changeLog clock].
  split; [reflexivity|]. split; [|split; [|done]].
  - destruct (int_files integrated); simpl; split; done.
  - rewrite <- forallb_accessible.
    destruct cs; simpl; [|split; [discriminate|intros [? _]; discriminate]].
    destruct (List.filter _ _); simpl; split; try done.
    intros [_ ?]. discriminate.
Qed.

(** X13. When every file of the integrated result lies inside the
    sandbox, [verify] returns: its issues are the notation conflicts
    followed by one issue per file that does not exist, in order (a file
    listed twice is reported twice); it warns only when there is no file; it
    passes exactly when the registry raises no conflict and every file
    exists; and it leaves the change log alone. *)
Theorem verify_reports_missing_files
    (fs : FileSystemTools) (courseState : CourseState)
    (integrated : Integrated) (σ : Orchestrator) :
  Forall (fun f => insideSandbox fs f = true) (int_files integrated) ->
  exists v σ',
    verify fs courseState integrated σ = (Returned v, σ') /\
    issues v =
      conflicts (verifyNotationConsistency courseState) ++
      (fileNotFound <$>
         List.filter (fun f => negb (accessible fs f)) (int_files integrated)) /\
    (warnings v = [] <-> int_files integrated <> []) /\
    (passed v = true <->
     conflicts (verifyNotationConsistency courseState) = [] /\
     forallb (accessible fs) (int_files integrated) = true) /\
    changeLog σ' = changeLog σ /\ clock σ' = clock σ.
Proof. apply verify_report_core. Qed.

Lemma verify_reports_missing_files_witness :
  exists v σ',
    verify sampleFs (State.new "Micro" None)
      {| int_output := "report";
         int_files := ["notes.tex"; "lecture1.tex"; "notes.tex"] |} initial
      = (Returned v, σ') /\
    issues v = ["File not found: notes.tex"; "File not found: notes.tex"].
Proof.
  destruct (verify_reports_missing_files sampleFs (State.new "Micro" None)
              {| int_output := "report";
                 int_files := ["notes.tex"; "lecture1.tex"; "notes.tex"] |}
              initial) as (v & σ' & Hv & Hi & _).
  - repeat constructor.
  - exists v, σ'. split; [exact Hv|]. rewrite Hi. reflexivity.
Defined.



End VerifyEdgeClaims.

Section IntegrateAndDelegate.
Import Js Helpers State Master.

Lemma fold_errors_app (errs : list string) (a b : string) :
  fold_left (fun o err => o +:+ "- " +:+ err +:+ nl) errs (a +:+ b) =
  a +:+ fold_left (fun o err => o +:+ "- " +:+ err +:+ nl) errs b.
Proof.
  revert b. induction errs as [|e errs IH]; intros b; cbn [fold_left]; [done|].
  by rewrite string_app_assoc, IH.
Qed.

Lemma integrateStep_output (acc : Integrated) (r : SubAgentResult) :
  int_output (integrateStep acc r) = int_output acc +:+ reportSection r.
Proof.
  unfold reportSection, integrateStep.
  destruct (success r); cbn [int_output].
  - by rewrite !string_app_assoc.
  - by rewrite !string_app_assoc, fold_errors_app, !string_app_assoc.
Qed.

Lemma integrateStep_files (acc : Integrated) (r : SubAgentResult) :
  int_files (integrateStep acc r) =
  int_files acc ++ (if success r then default [] (files r) else []).
Proof.
  unfold integrateStep. destruct (success r); cbn [int_files]; [done|].
  by rewrite app_nil_r.
Qed.

(** X15. Integration goes through the results in order: a further result
    appends its section to the combined report and, when it succeeded, its
    files to the file list; a failed result adds no file, whatever it lists,
    and no file is dropped as a duplicate. *)
Theorem integrateResults_appends
    (courseState : CourseState) (results : list SubAgentResult)
    (r : SubAgentResult) (task : string) :
  int_output (integrateResults courseState (results ++ [r]) task) =
    int_output (integrateResults courseState results task) +:+ reportSection r /\
  int_files (integrateResults courseState (results ++ [r]) task) =
    int_files (integrateResults courseState results task) ++
    (if success r then default [] (files r) else []) /\
  int_files (integrateResults courseState results task) =
    flat_map (fun x => if success x then default [] (files x) else []) results /\
  length (int_files (integrateResults courseState results task)) =
    list_sum ((fun x => if success x then length (default [] (files x)) else 0%nat)
                <$> results).
Proof.
  split; [|split; [|split]].
  - unfold integrateResults. rewrite fold_left_app. apply integrateStep_output.
  - unfold integrateResults. rewrite fold_left_app. apply integrateStep_files.
  - apply integrateResults_files.
  - rewrite integrateResults_files.
    induction results as [|x xs IH]; [reflexivity|].
    cbn [flat_map]. rewrite length_app, fmap_cons. simpl.
    rewrite IH. destruct (success x); reflexivity.
Qed.

Variable sub : SubAgents.
Variable toISOString : nat -> string.

Lemma delegateSequential_outcome (agents : list string) (task : string)
    (context : option string) (σ : Orchestrator) :
  fst (delegateSequential sub toISOString agents task context σ) =
  promiseAll ((fun a => dispatch sub a task context) <$> agents).
Proof.
  unfold delegateSequential. revert σ.
  induction agents as [|a agents IH]; intros σ; [reflexivity|].
  rewrite fmap_cons. cbn [traverse promiseAll].
  unfold bind at 1. rewrite executeSubAgent_eq.
  destruct (dispatch sub a task context) as [r|e]; [|reflexivity].
  unfold bind at 1.
  rewrite <- (IH (if success r then logged toISOString a task r σ else σ)).
  destruct (traverse _ agents _) as [[rs|e] σ1]; reflexivity.
Qed.

Lemma delegateToAgents_outcome (completion : list string) (plan : TaskPlan)
    (task : string) (context : option string) (σ : Orchestrator) :
  fst (delegateToAgents sub toISOString completion plan task context σ) =
  promiseAll ((fun a => dispatch sub a task context) <$> agents plan).
Proof.
  unfold delegateToAgents. destruct (parallel plan).
  - reflexivity.
  - apply delegateSequential_outcome.
Qed.

Lemma promiseAll_Forall2 (agents : list string) (task : string)
    (context : option string) (results : list SubAgentResult) :
  promiseAll ((fun a => dispatch sub a task context) <$> agents) = Returned results ->
  Forall2 (fun a r => dispatch sub a task context = Returned r) agents results.
Proof.
  revert results. induction agents as [|a agents IH]; intros results.
  - intros [= <-]. constructor.
  - rewrite fmap_cons. cbn [promiseAll].
    destruct (dispatch sub a task context) as [r|e] eqn:E; [|discriminate].
    destruct (promiseAll _) as [rs|e]; [|discriminate].
    intros [= <-]. constructor; auto.
Qed.

Lemma delegateToAgents_entries (completion : list string) (plan : TaskPlan)
    (task : string) (context : option string) (σ : Orchestrator)
    (results : list SubAgentResult) :
  fst (delegateToAgents sub toISOString completion plan task context σ)
    = Returned results ->
  exists entries,
    changeLog (snd (delegateToAgents sub toISOString completion plan task context σ))
      = changeLog σ ++ entries /\
    agent <$> entries =
      List.filter (succeeds sub task context)
        (if parallel plan then completion else agents plan).
Proof.
  unfold delegateToAgents. destruct (parallel plan).
  - intros _. unfold delegateParallel. cbn [snd]. apply completion_log.
  - intros H.
    destruct (delegateSequential sub toISOString (agents plan) task context σ)
      as [o σ1] eqn:E.
    cbn [fst snd] in *. subst o.
    destruct (delegateSequential_log _ _ _ _ _ _ _ _ E) as (entries & ? & _ & ?).
    eauto.
Qed.

Lemma delegateToAgents_keeps_verification (completion : list string)
    (plan : TaskPlan) (task : string) (context : option string)
    (σ : Orchestrator) :
  lastVerification
    (snd (delegateToAgents sub toISOString completion plan task context σ))
  = lastVerification σ.
Proof.
  assert (Hstep : forall a s,
    lastVerification (snd (executeSubAgent sub toISOString a task context s))
    = lastVerification s).
  { intros a s. rewrite executeSubAgent_eq.
    destruct (dispatch sub a task context) as [r|e]; [|reflexivity].
    destruct (success r); reflexivity. }
  unfold delegateToAgents. destruct (parallel plan).
  - unfold delegateParallel. cbn [snd]. revert σ.
    induction completion as [|a l IH]; intros σ; [reflexivity|].
    cbn [fold_left]. by rewrite IH, Hstep.
  - unfold delegateSequential. revert σ.
    induction (agents plan) as [|a l IH]; intros σ; [reflexivity|].
    cbn [traverse]. unfold bind at 1.
    specialize (Hstep a σ).
    destruct (executeSubAgent sub toISOString a task context σ) as [[r|e] σ1];
      cbn [snd] in Hstep; [|exact Hstep].
    unfold bind at 1. specialize (IH σ1).
    destruct (traverse _ l σ1) as [[rs|e] σ2]; unfold ret;
      cbn [snd] in *; congruence.
Qed.

End IntegrateAndDelegate.

Section DelegateOrderClaim.
Import Js Helpers State Master.

Lemma delegate_plan_order_core
    (sub : SubAgents) (toISOString : nat -> string)
    (completion : list string) (text task : string)
    (context : option string) (σ : Orchestrator) :
  exists results σ' entries,
    delegateToAgents sub toISOString completion (createPlan text) task context σ
      = (Returned results, σ') /\
    Forall2 (fun a r => dispatch sub a task context = Returned r)
      (agents (createPlan text)) results /\
    changeLog σ' = changeLog σ ++ entries /\
    agent <$> entries =
      List.filter (succeeds sub task context)
        (if parallel (createPlan text) then completion
         else agents (createPlan text)) /\
    lastVerification σ' = lastVerification σ.
Proof.
  destruct (delegateToAgents_returns sub toISOString completion text task context σ)
    as (results & σ' & Hrun).
  pose proof (delegateToAgents_outcome sub toISOString completion
                (createPlan text) task context σ) as Hout.
  pose proof (delegateToAgents_entries sub toISOString completion
                (createPlan text) task context σ results) as Hent.
  pose proof (delegateToAgents_keeps_verification sub toISOString completion
                (createPlan text) task context σ) as Hver.
  rewrite Hrun in Hout, Hent, Hver. cbn [fst snd] in *.
  destruct (Hent eq_refl) as (entries & Hlog & Hag).
  exists results, σ', entries. split; [exact Hrun|].
  split; [apply promiseAll_Forall2; by symmetry|]. auto.
Qed.

(** X16. On a plan built by [createPlan] the delegate step returns one
    result per handler of the plan, in plan order, each the result of that
    handler, in sequential and in parallel mode alike and whatever the
    order in which parallel handlers complete; only the change log tells
    the modes apart: its new entries name the successful handlers in plan
    order when sequential and in completion order when parallel. *)
Theorem delegate_results_in_plan_order
    (sub : SubAgents) (toISOString : nat -> string)
    (completion : list string) (text task : string)
    (context : option string) (σ : Orchestrator) :
  exists results σ' entries,
    delegateToAgents sub toISOString completion (createPlan text) task context σ
      = (Returned results, σ') /\
    Forall2 (fun a r => dispatch sub a task context = Returned r)
      (agents (createPlan text)) results /\
    changeLog σ' = changeLog σ ++ entries /\
    agent <$> entries =
      List.filter (succeeds sub task context)
        (if parallel (createPlan text) then completion
         else agents (createPlan text)) /\
    lastVerification σ' = lastVerification σ.
Proof. apply delegate_plan_order_core. Qed.

End DelegateOrderClaim.

(** ** The whole loop *)
Section Execute.
Import Js Helpers State Master.

Variable sub : SubAgents.
Variable fs : FileSystemTools.
Variable courseState : CourseState.
Variable toISOString : nat -> string.

Lemma delegate_planResults (completion : list string) (task : string)
    (context : option string) (σ : Orchestrator) :
  exists σ1 entries,
    delegateToAgents sub toISOString completion (createPlan task) task context σ
      = (Returned (planResults sub task context), σ1) /\
    changeLog σ1 = changeLog σ ++ entries /\
    agent <$> entries =
      List.filter (succeeds sub task context)
        (if parallel (createPlan task) then completion
         else agents (createPlan task)) /\
    lastVerification σ1 = lastVerification σ.
Proof.
  destruct (delegate_plan_order_core sub toISOString completion task task
              context σ) as (results & σ1 & entries & Hrun & _ & Hlog & Hag & Hver).
  pose proof (delegateToAgents_outcome sub toISOString completion
                (createPlan task) task context σ) as Hout.
  rewrite Hrun in Hout. cbn [fst] in Hout.
  exists σ1, entries. unfold planResults. rewrite <- Hout. auto.
Qed.

Lemma execute_normal (completion : list string) (task : string)
    (context : option string) (σ : Orchestrator) :
  Forall (fun f => insideSandbox fs f = true)
    (producedFiles sub courseState task context) ->
  exists σ1 v out,
    delegateToAgents sub toISOString completion (createPlan task) task context σ
      = (Returned (planResults sub task context), σ1) /\
    verify fs courseState
      (integrateResults courseState (planResults sub task context) task) σ1
      = (Returned v, {| changeLog := changeLog σ1; lastVerification := v;
                        clock := clock σ1 |}) /\
    execute sub fs courseState toISOString completion task context σ =
      (Returned {| agentType := "MasterTA"; success := passed v; output := out;
                   files := Some (producedFiles sub courseState task context);
                   errors := None |},
       {| changeLog := changeLog σ1; lastVerification := v; clock := clock σ1 |}).
Proof.
  intros Hin.
  destruct (delegate_planResults completion task context σ)
    as (σ1 & entries & Hrun & _).
  pose proof (verify_inside fs courseState
                (integrateResults courseState (planResults sub task context) task)
                σ1 Hin) as Hv.
  cbv zeta in Hv.
  eexists σ1, _, _. split; [exact Hrun|]. split; [exact Hv|].
  unfold execute, tryCatch. unfold bind at 1. rewrite Hrun.
  unfold bind at 1. rewrite Hv.
  unfold bind at 1, generateFinalOutput at 1, ret. reflexivity.
Qed.

Lemma execute_caught (completion : list string) (task : string)
    (context : option string) (σ : Orchestrator)
    (pre post : list string) (f : string) :
  producedFiles sub courseState task context = pre ++ f :: post ->
  Forall (fun g => insideSandbox fs g = true) pre ->
  insideSandbox fs f = false ->
  exists σ1,
    delegateToAgents sub toISOString completion (createPlan task) task context σ
      = (Returned (planResults sub task context), σ1) /\
    execute sub fs courseState toISOString completion task context σ =
      (Returned {| agentType := "MasterTA"; success := false;
                   output := "Error: " +:+ accessDenied f;
                   files := Some []; errors := Some [accessDenied f] |}, σ1).
Proof.
  intros Hfiles Hpre Hf.
  destruct (delegate_planResults completion task context σ)
    as (σ1 & entries & Hrun & _).
  exists σ1. split; [exact Hrun|].
  unfold execute, tryCatch. unfold bind at 1. rewrite Hrun.
  unfold bind at 1.
  rewrite (verify_outside fs courseState _ pre post f σ1 Hfiles Hpre Hf).
  reflexivity.
Qed.

Lemma execute_reports_access_error_lemma (completion : list string)
    (task : string) (context : option string) (σ : Orchestrator)
    (pre post : list string) (f : string) :
  producedFiles sub courseState task context = pre ++ f :: post ->
  Forall (fun g => insideSandbox fs g = true) pre ->
  insideSandbox fs f = false ->
  exists σ',
    execute sub fs courseState toISOString completion task context σ =
      (Returned {| agentType := "MasterTA"; success := false;
                   output := "Error: " +:+ accessDenied f;
                   files := Some []; errors := Some [accessDenied f] |}, σ') /\
    lastVerification σ' = lastVerification σ.
Proof.
  intros Hfiles Hpre Hf.
  destruct (execute_caught completion task context σ pre post f Hfiles Hpre Hf)
    as (σ1 & Hrun & Hex).
  destruct (delegate_planResults completion task context σ)
    as (σ1' & entries & Hrun' & _ & _ & Hver).
  rewrite Hrun in Hrun'. injection Hrun' as <-.
  exists σ1. split; [exact Hex|exact Hver].
Qed.

Lemma first_outside (files : list string) :
  Forall (fun f => insideSandbox fs f = true) files \/
  exists pre f post,
    files = pre ++ f :: post /\
    Forall (fun g => insideSandbox fs g = true) pre /\
    insideSandbox fs f = false.
Proof.
  induction files as [|f files IH]; [left; constructor|].
  destruct (insideSandbox fs f) eqn:E.
  - destruct IH as [IH|(pre & g & post & -> & Hpre & Hg)].
    + left. by constructor.
    + right. exists (f :: pre), g, post. repeat split; auto.
  - right. exists [], f, files. repeat split; auto.
Qed.

End Execute.

Section ExecuteClaims.
Import Js Helpers State Master.

(** X17. [execute] never throws: whatever the handlers return and the
    file system answers, it returns a result of the orchestrator, either
    one without errors or a failure without files, and the change log has
    only grown, by the entries of the handlers that succeeded. *)
Theorem execute_never_throws
    (sub : SubAgents) (fs : FileSystemTools) (courseState : CourseState)
    (toISOString : nat -> string) (completion : list string) (task : string)
    (context : option string) (σ : Orchestrator) :
  exists r σ' entries,
    execute sub fs courseState toISOString completion task context σ
      = (Returned r, σ') /\
    agentType r = "MasterTA" /\
    (errors r = None \/ (success r = false /\ files r = Some [])) /\
    changeLog σ' = changeLog σ ++ entries /\
    agent <$> entries =
      List.filter (succeeds sub task context)
        (if parallel (createPlan task) then completion
         else agents (createPlan task)).
Proof.
  destruct (delegate_planResults sub toISOString completion task context σ)
    as (σ1 & entries & Hrun & Hlog & Hag & _).
  destruct (first_outside fs (producedFiles sub courseState task context))
    as [Hin|(pre & f & post & Hfiles & Hpre & Hf)].
  - destruct (execute_normal sub fs courseState toISOString completion task
                context σ Hin) as (σ1' & v & out & Hrun' & _ & ->).
    rewrite Hrun in Hrun'. injection Hrun' as <-.
    eexists _, _, entries. split; [reflexivity|]. cbn.
    repeat split; auto.
  - destruct (execute_caught sub fs courseState toISOString completion task
                context σ pre post f Hfiles Hpre Hf) as (σ1' & Hrun' & ->).
    rewrite Hrun in Hrun'. injection Hrun' as <-.
    eexists _, _, entries. split; [reflexivity|]. cbn.
    repeat split; auto.
Qed.

(** X18. When every file the handlers produced lies inside the sandbox,
    [execute] reports success exactly when the registry raises no notation
    conflict and every produced file exists; whether handlers failed does
    not enter. It returns the produced files and records the verification
    it ran. *)
Theorem execute_success_iff
    (sub : SubAgents) (fs : FileSystemTools) (courseState : CourseState)
    (toISOString : nat -> string) (completion : list string) (task : string)
    (context : option string) (σ : Orchestrator) :
  Forall (fun f => insideSandbox fs f = true)
    (producedFiles sub courseState task context) ->
  exists r σ',
    execute sub fs courseState toISOString completion task context σ
      = (Returned r, σ') /\
    (success r = true <->
     conflicts (verifyNotationConsistency courseState) = [] /\
     forallb (accessible fs) (producedFiles sub courseState task context) = true) /\
    files r = Some (producedFiles sub courseState task context) /\
    errors r = None /\
    success r = passed (lastVerification σ').
Proof.
  intros Hin.
  destruct (execute_normal sub fs courseState toISOString completion task
              context σ Hin) as (σ1 & v & out & _ & Hv & ->).
  destruct (verify_report_core fs courseState
              (integrateResults courseState (planResults sub task context) task)
              σ1 Hin) as (v' & σ'' & Hv' & _ & _ & Hpass & _).
  rewrite Hv in Hv'. injection Hv' as <- _.
  do 2 eexists. split; [reflexivity|]. cbn. auto.
Qed.


Lemma execute_success_iff_witness :
  exists r σ',
    execute sampleAgents sampleFs (State.new "Micro" None) sampleClock []
      "Write an r script for the demand data" None initial = (Returned r, σ') /\
    success r = false /\
    files r = Some ["demand.R"].
Proof.
  destruct (execute_success_iff sampleAgents sampleFs (State.new "Micro" None)
              sampleClock [] "Write an r script for the demand data" None initial)
    as (r & σ' & Hex & Hiff & Hfiles & _).
  - apply Forall_forall. intros f _. reflexivity.
  - exists r, σ'. split; [exact Hex|]. split; [|exact Hfiles].
    destruct (success r); [|reflexivity].
    destruct (proj1 Hiff eq_refl) as [_ Hall]. vm_compute in Hall. discriminate.
Defined.


Lemma planResults_dispatched (sub : SubAgents) (task : string)
    (context : option string) :
  Forall (fun r => exists a, dispatch sub a task context = Returned r)
    (planResults sub task context).
Proof.
  unfold planResults.
  destruct (promiseAll _) as [results|e] eqn:E; [|constructor].
  apply promiseAll_Forall2 in E.
  induction E as [|a r agents results Ha _ IH]; constructor; eauto.
Qed.

(** X20. A run in which every handler fails still reports success when
    the registry raises no notation conflict: no file is produced, so the
    verification only warns, and no change-log entry is written. *)
Theorem execute_succeeds_when_all_handlers_fail
    (sub : SubAgents) (fs : FileSystemTools) (courseState : CourseState)
    (toISOString : nat -> string) (completion : list string) (task : string)
    (context : option string) (σ : Orchestrator) :
  (forall a r, dispatch sub a task context = Returned r -> success r = false) ->
  conflicts (verifyNotationConsistency courseState) = [] ->
  exists r σ',
    execute sub fs courseState toISOString completion task context σ
      = (Returned r, σ') /\
    success r = true /\
    files r = Some [] /\
    errors r = None /\
    changeLog σ' = changeLog σ /\
    lastVerification σ' =
      {| passed := true; issues := [];
         warnings := ["No files were generated"] |}.
Proof.
  intros Hfail Hcons.
  assert (Hnone : producedFiles sub courseState task context = []).
  { unfold producedFiles. rewrite integrateResults_files.
    pose proof (planResults_dispatched sub task context) as Hd.
    induction Hd as [|r rs [a Ha] _ IH]; [reflexivity|].
    cbn [flat_map]. by rewrite (Hfail a r Ha), IH. }
  assert (Hin : Forall (fun f => insideSandbox fs f = true)
                  (producedFiles sub courseState task context)).
  { rewrite Hnone. constructor. }
  destruct (execute_normal sub fs courseState toISOString completion task
              context σ Hin) as (σ1 & v & out & Hrun & Hv & ->).
  destruct (delegate_planResults sub toISOString completion task context σ)
    as (σ1' & entries & Hrun' & Hlog & Hag & _).
  rewrite Hrun in Hrun'. injection Hrun' as <-.
  assert (Hentries : entries = []).
  { apply fmap_nil_inv with (f := agent). rewrite Hag.
    apply elem_of_nil_inv. intros a Ha.
    apply list_elem_of_In, List.filter_In in Ha as [_ Ha].
    unfold succeeds in Ha.
    destruct (dispatch sub a task context) as [r|e] eqn:E; [|discriminate].
    rewrite (Hfail a r E) in Ha. discriminate. }
  rewrite Hentries, app_nil_r in Hlog.
  pose proof (verify_inside fs courseState _ σ1 Hin) as Hv'.
  cbv zeta in Hv'. rewrite Hv in Hv'.
  change (int_files (integrateResults courseState
                       (planResults sub task context) task))
    with (producedFiles sub courseState task context) in Hv'.
  rewrite Hnone, Hcons in Hv'. cbn in Hv'. injection Hv' as Hv' _.
  subst v.
  do 2 eexists. split; [reflexivity|]. cbn. rewrite Hnone. auto.
Qed.

Lemma execute_succeeds_when_all_handlers_fail_witness :
  exists r σ',
    execute {| latexTA := failingTA; problemSetTA := failingTA;
               researchTA := failingTA; rcodeTA := failingTA |}
      sampleFs (State.new "Micro" None) sampleClock
      ["LatexTA"; "ProblemSetTA"]
      "Create lecture 5 slides and homework problems" None initial
      = (Returned r, σ') /\
    success r = true /\ changeLog σ' = [].
Proof.
  destruct (execute_succeeds_when_all_handlers_fail
              {| latexTA := failingTA; problemSetTA := failingTA;
                 researchTA := failingTA; rcodeTA := failingTA |}
              sampleFs (State.new "Micro" None) sampleClock
              ["LatexTA"; "ProblemSetTA"]
              "Create lecture 5 slides and homework problems" None initial)
    as (r & σ' & Hex & Hs & _ & _ & Hlog & _).
  - intros a r. unfold dispatch. cbn [latexTA problemSetTA researchTA rcodeTA].
    repeat destruct (String.eqb a _); intros [= <-]; reflexivity.
  - reflexivity.
  - exists r, σ'. auto.
Defined.

(** X21. The result with metadata carries the change log of the
    orchestrator and its last verification. After a run that went through,
    this is the verification of the run and agrees with the success flag;
    after a run that ended in an access error it is the verification of
    an earlier run, or the initial one, which says passed while the run
    reports failure. *)
Theorem executeWithMetadata_verification
    (sub : SubAgents) (fs : FileSystemTools) (courseState : CourseState)
    (toISOString : nat -> string) (completion : list string) (task : string)
    (context : option string) (σ : Orchestrator)
    (pre post : list string) (f : string) :
  (Forall (fun g => insideSandbox fs g = true)
     (producedFiles sub courseState task context) ->
   exists m σ',
     executeWithMetadata sub fs courseState toISOString completion task context σ
       = (Returned m, σ') /\
     mr_success m = passed (mr_verification m) /\
     mr_verification m = lastVerification σ' /\
     mr_changeLog m = changeLog σ' /\
     mr_files m = producedFiles sub courseState task context) /\
  (producedFiles sub courseState task context = pre ++ f :: post ->
   Forall (fun g => insideSandbox fs g = true) pre ->
   insideSandbox fs f = false ->
   exists m σ',
     executeWithMetadata sub fs courseState toISOString completion task context σ
       = (Returned m, σ') /\
     mr_success m = false /\
     mr_verification m = lastVerification σ /\
     mr_changeLog m = changeLog σ' /\
     mr_files m = []).
Proof.
  split.
  - intros Hin.
    destruct (execute_normal sub fs courseState toISOString completion task
                context σ Hin) as (σ1 & v & out & _ & _ & Hex).
    unfold executeWithMetadata. unfold bind at 1. rewrite Hex.
    unfold bind at 1, getLastVerification at 1.
    do 2 eexists. split; [reflexivity|]. cbn. auto.
  - intros Hfiles Hpre Hf.
    destruct (execute_reports_access_error_lemma sub fs courseState toISOString
                completion task context σ pre post f Hfiles Hpre Hf)
      as (σ1 & Hex & Hver).
    unfold executeWithMetadata. unfold bind at 1. rewrite Hex.
    unfold bind at 1, getLastVerification at 1.
    do 2 eexists. split; [reflexivity|]. cbn. auto.
Qed.

Lemma executeWithMetadata_verification_witness :
  exists m σ',
    executeWithMetadata sampleAgents
      {| insideSandbox := fun f => negb (String.eqb f "demand.R");
         accessible := fun _ => true |}
      (State.new "Micro" None) sampleClock []
      "Write an r script for the demand data" None initial = (Returned m, σ') /\
    mr_success m = false /\
    passed (mr_verification m) = true.
Proof.
  destruct (proj2 (executeWithMetadata_verification sampleAgents
              {| insideSandbox := fun f => negb (String.eqb f "demand.R");
                 accessible := fun _ => true |}
              (State.new "Micro" None) sampleClock []
              "Write an r script for the demand data" None initial
              [] [] "demand.R") eq_refl (List.Forall_nil _) eq_refl)
    as (m & σ' & Hex & Hs & Hv & _).
  exists m, σ'. split; [exact Hex|]. split; [exact Hs|]. by rewrite Hv.
Defined.

End ExecuteClaims.
